(** * face_authenticator: enrollment and matching pipeline

    A shallow embedding of [app.py], [database.py] and [utils.py].

    The request handlers are stateful Python: they mutate the Milvus
    collection, the module-level [metadata] dict, the file
    [instance/metadata.json] and Flask's flash queue, and they can be cut
    short by an exception.  They are embedded as computations in a
    state-and-exception monad over an explicit [World].

    Three things the repository does not contain are kept abstract and are
    parameters of the development:
    - the face model behind [utils.app.get] (composed with the image
      decoding that feeds it);
    - the operating system entropy behind [uuid.uuid4];
    - the number the index reports as the distance of a hit for
      [metric_type = "L2"].

    Floating-point numbers are embedded as exact rationals ([Qc]), so
    rounding is not part of the model: what is proved of a computed vector
    holds of the program up to rounding.  The Milvus engine is embedded at
    the level of its contract: an insertion-ordered list of entities, an
    insert that checks the VARCHAR lengths of the schema, an exact top-1
    search, a filter-by-expression delete and a scan.  The adapter is
    embedded for the images it handles: an image that cannot be decoded
    makes the library calls of [get_face_embedding] raise, which is not
    part of the model, so nothing below says that a handler answers
    whatever bytes are uploaded. *)

From Stdlib Require Import QArith Qcanon Ascii String.
From stdpp Require Import base numbers strings list vector gmap pretty.

Local Open Scope Z_scope.

(** ** Values *)

(** [database.EMBEDDING_DIMENSION] *)
Definition EMBEDDING_DIMENSION : nat := 512.

(** A numpy array of shape [(512,)], as [normed_embedding] returns it. *)
Abbreviation ndarray := (vec Qc EMBEDDING_DIMENSION).

(** [bytes] *)
Abbreviation bytes := (list Byte.byte).

(** What [jsonify] is given as dictionary values. *)
Inductive Json : Type :=
  | JNull
  | JBool (b : bool)
  | JStr (s : string)
  | JNum (q : Qc).

(** A Flask JSON response body: the dictionary handed to [jsonify], keys in
    the order the source writes them. *)
Abbreviation Response := (list (string * Json)).

(** [werkzeug.datastructures.FileStorage]: an uploaded file. *)
Record FileStorage : Type := mkFile {
  filename : string;
  stream : bytes
}.

(** [flask.request]: [form] and [files] are MultiDicts, where order and
    repeated keys matter, so they are association lists. *)
Record Request : Type := mkRequest {
  method : string;
  form : list (string * string);
  files : list (string * FileStorage)
}.

(** A detected face, as [FaceAnalysis.get] returns it; only the field the
    code reads. *)
Record Face : Type := mkFace {
  normed_embedding : ndarray
}.

(** One row of the collection [face_recognition_system], with the five
    fields of the schema declared in [init_milvus]. *)
Record Entity : Type := mkEntity {
  pk : Z;
  embedding : ndarray;
  user_uuid : string;
  name : string;
  human_id : string
}.

(** One search hit: [hit.distance] and [hit.entity], the latter a mapping
    from the requested output fields to their values. *)
Record Hit : Type := mkHit {
  distance : Qc;
  entity : gmap string string
}.

(** Python values that an attribute of [MutationResult] can hold. *)
Inductive PyVal : Type :=
  | PyInt (n : Z)
  | PyList (l : list Z).

(** [pymilvus.MutationResult]: the value [collection.delete] returns. *)
Record MutationResult : Type := mkMutationResult {
  mr_primary_keys : list Z;
  mr_insert_count : Z;
  mr_delete_count : Z;
  mr_upsert_count : Z;
  mr_timestamp : Z;
  mr_succ_count : Z;
  mr_err_count : Z;
  mr_succ_index : list Z;
  mr_err_index : list Z
}.

(** What a page route returns. *)
Inductive WebResult : Type :=
  | Redirect (endpoint : string)
  | Render (template : string) (users : list (gmap string string)).

(** ** Exceptions *)

Inductive Exn : Type :=
  | AttributeError (attr : string)
  | KeyError (key : string)
  | TypeError (msg : string)
  | MilvusException (msg : string).

Inductive Res (A : Type) : Type :=
  | Ok (a : A)
  | Raise (e : Exn).
Arguments Ok {A} a.
Arguments Raise {A} e.

(** ** The world the handlers act on *)

(** The observable actions of a handler on its collaborators, most recent
    last.  They let a statement say that a collaborator was never called. *)
Inductive Event : Type :=
  | EvEmbed (image_bytes : bytes)
  | EvUuid4 (drawn : string)
  | EvMetadataSaved (content : gmap string Z)
  | EvInsert (e : Entity)
  | EvFlush
  | EvSearch (query : ndarray)
  | EvDelete (expr : string)
  | EvQuery (expr : string).

Record World : Type := mkWorld {
  (** the Milvus collection, oldest entity first *)
  collection : list Entity;
  (** the next primary key the engine hands out ([auto_id=True]); the
      engine chooses its keys, of which the model keeps that they are
      positive and never handed out twice *)
  next_pk : Z;
  (** the module-level dict [database.metadata] *)
  metadata : gmap string Z;
  (** [instance/metadata.json]; [None] while the file does not exist *)
  metadata_file : option (gmap string Z);
  (** how many uuids have been drawn from the entropy source *)
  uuid_draws : nat;
  (** Flask's flashed messages, each with its category *)
  flashes : list (string * string);
  (** the actions performed so far *)
  log : list Event
}.

(** The state at import time of a fresh installation: an empty collection,
    no metadata file, and [metadata = {"last_user_id": 0}]. *)
Definition fresh_world : World :=
  mkWorld [] 1 {[ "last_user_id" := 0 ]} None 0 [] [].

(** ** The monad of handlers *)

Definition M (A : Type) : Type := World → Res A * World.

Global Instance M_ret : MRet M := λ A a w, (Ok a, w).

(** An exception ends the computation; what was done before it stays done. *)
Global Instance M_bind : MBind M := λ A B f m w,
  match m w with
  | (Ok a, w') => f a w'
  | (Raise e, w') => (Raise e, w')
  end.

Definition raise {A : Type} (e : Exn) : M A := λ w, (Raise e, w).
Definition get_world : M World := λ w, (Ok w, w).
Definition put_world (w' : World) : M unit := λ _, (Ok tt, w').

Definition emit (ev : Event) : M unit := λ w,
  (Ok tt, mkWorld (collection w) (next_pk w) (metadata w) (metadata_file w)
                  (uuid_draws w) (flashes w) (log w ++ [ev])).

(** What the caller of a handler observes, and the world it leaves. *)
Definition outcome {A : Type} (r : Res A * World) : Res A := r.1.
Definition world_after {A : Type} (r : Res A * World) : World := r.2.

(** ** Python and Flask helpers *)

(** Truthiness of a [str]. *)
Definition str_truthy (s : string) : bool := bool_decide (s ≠ "").

(** Truthiness of an optional [str]: [None] and [""] are false. *)
Definition opt_str_truthy (o : option string) : bool :=
  match o with
  | Some s => str_truthy s
  | None => false
  end.

(** Truthiness of an [int] or a [list]. *)
Definition py_truthy (v : PyVal) : bool :=
  match v with
  | PyInt n => bool_decide (n ≠ 0)
  | PyList l => bool_decide (l ≠ [])
  end.

(** [MultiDict.getlist(key)]: every value stored under [key], in order. *)
Definition getlist {V : Type} (key : string) (md : list (string * V)) : list V :=
  (filter (λ kv, kv.1 = key) md).*2.

(** [MultiDict.get(key)], also the value of [md[key]] when the key is
    there: the first value stored under [key]. *)
Definition multidict_get {V : Type} (key : string) (md : list (string * V)) : option V :=
  head (getlist key md).

(** [FileStorage.__bool__] is [bool(self.filename)]. *)
Definition file_truthy (f : FileStorage) : bool := str_truthy (filename f).

(** [dict.get(key, default)] on a decoded JSON body, rendered as the text
    [flash] shows. *)
Definition json_text (j : Json) : string :=
  match j with
  | JNull => "None"
  | JBool true => "True"
  | JBool false => "False"
  | JStr s => s
  | JNum _ => "<float>"
  end.

Definition response_get (key : string) (default : string) (r : Response) : string :=
  match multidict_get key r with
  | Some j => json_text j
  | None => default
  end.

Definition json_truthy (j : Json) : bool :=
  match j with
  | JNull => false
  | JBool b => b
  | JStr s => str_truthy s
  | JNum q => bool_decide (q ≠ 0%Qc)
  end.

Definition json_opt_str (o : option string) : Json :=
  match o with
  | Some s => JStr s
  | None => JNull
  end.

(** [flask.flash(message, category)] *)
Definition flash (message category : string) : M unit := λ w,
  (Ok tt, mkWorld (collection w) (next_pk w) (metadata w) (metadata_file w)
                  (uuid_draws w) (flashes w ++ [(message, category)]) (log w)).

(** ** numpy *)

Definition zeros : ndarray := vreplicate EMBEDDING_DIMENSION 0%Qc.

(** [np.mean(a, axis=0)] for a list [a] of arrays of shape [(512,)]: the
    sum of the rows divided by the number of rows.  For an empty list numpy
    returns NaN, which this number type cannot hold; [api_register] only
    calls it with two rows or more. *)
Definition np_mean_axis0 (a : list ndarray) : ndarray :=
  vmap (λ s, (s / Qc_of_Z (Z.of_nat (length a)))%Qc)
       (foldr (vzip_with Qcplus) zeros a).

(** ** The Milvus engine *)

(** The filter expressions the engine is sent by this program have the
    shape [field == 'literal'].  [strip_prefix p s] removes [p] from the
    front of [s]; [read_quoted s] reads a literal up to its closing quote,
    which must end the expression. *)
Fixpoint strip_prefix (p s : string) : option string :=
  match p, s with
  | EmptyString, _ => Some s
  | String a p', String b s' => if decide (a = b) then strip_prefix p' s' else None
  | String _ _, EmptyString => None
  end.

Fixpoint read_quoted (s : string) : option string :=
  match s with
  | EmptyString => None
  | String c s' =>
      if decide (c = "'"%char)
      then (if decide (s' = "") then Some "" else None)
      else String c <$> read_quoted s'
  end.

Definition parse_uuid_filter (expr : string) : option string :=
  strip_prefix "user_uuid == '" expr ≫= read_quoted.

(** The schema declared in [init_milvus] bounds the three VARCHAR fields:
    [user_uuid] by 36, [name] by 255 and [human_id] by 20 bytes.  The
    engine refuses an insertion that exceeds a bound. *)
Definition within_schema (uuid nm hid : string) : Prop :=
  (String.length uuid ≤ 36)%nat
  ∧ (String.length nm ≤ 255)%nat
  ∧ (String.length hid ≤ 20)%nat.

Global Instance within_schema_dec uuid nm hid : Decision (within_schema uuid nm hid).
Proof. unfold within_schema. apply _. Defined.

(** The output fields of an entity, as a hit or a query row carries them. *)
Definition output_fields (e : Entity) : gmap string string :=
  {[ "user_uuid" := user_uuid e; "name" := name e; "human_id" := human_id e ]}.

Section Program.

(** [utils.app.get] applied to the decoded image. *)
Variable app_get : bytes → list Face.

(** The text of the [n]-th uuid that [uuid.uuid4()] draws. *)
Variable uuid4_source : nat → string.

(** The distance the index reports between a query and a stored vector. *)
Variable l2 : ndarray → ndarray → Qc.

(** *** Engine operations *)

(** The closest entity and its distance; among equally close ones the one
    inserted first. *)
Fixpoint nearest (q : ndarray) (es : list Entity) : option (Entity * Qc) :=
  match es with
  | [] => None
  | e :: es' =>
      let d := l2 q (embedding e) in
      match nearest q es' with
      | Some (e', d') => if decide (d' < d)%Qc then Some (e', d') else Some (e, d)
      | None => Some (e, d)
      end
  end.

(** [collection.search(data=[...], limit=1, output_fields=[...])]: one
    list of hits per query vector, each of length at most one. *)
Definition collection_search (data : list ndarray) : M (list (list Hit)) :=
  w ← get_world;
  mapM (λ q, emit (EvSearch q);;
             mret (match nearest q (collection w) with
                   | Some (e, d) => [mkHit d (output_fields e)]
                   | None => []
                   end)) data.

(** [collection.insert([[embedding], [user_uuid], [name], [human_id]])]:
    appends the entity under a new primary key, unless a VARCHAR field is
    longer than the schema allows, in which case the engine raises and
    stores nothing. *)
Definition collection_insert (emb : ndarray) (uuid nm hid : string) : M unit := λ w,
  if decide (within_schema uuid nm hid)
  then
    let e := mkEntity (next_pk w) emb uuid nm hid in
    (Ok tt, mkWorld (collection w ++ [e]) (next_pk w + 1) (metadata w)
                    (metadata_file w) (uuid_draws w) (flashes w)
                    (log w ++ [EvInsert e]))
  else (Raise (MilvusException "length of varchar field exceeds max length"), w).

(** [collection.flush()] *)
Definition collection_flush : M unit := emit EvFlush.

(** [collection.delete(expr)]: removes the entities the filter selects and
    reports how many there were. *)
Definition collection_delete (expr : string) : M MutationResult :=
  emit (EvDelete expr);;
  match parse_uuid_filter expr with
  | None => raise (MilvusException "cannot parse expression")
  | Some u =>
      w ← get_world;
      let gone := filter (λ e, user_uuid e = u) (collection w) in
      let kept := filter (λ e, user_uuid e ≠ u) (collection w) in
      put_world (mkWorld kept (next_pk w) (metadata w) (metadata_file w)
                         (uuid_draws w) (flashes w) (log w));;
      mret (mkMutationResult [] 0 (Z.of_nat (length gone)) 0 0 0 0 [] [])
  end.

(** [collection.query(expr="pk >= 0", output_fields=[...])] *)
Definition collection_query_all : M (list (gmap string string)) :=
  emit (EvQuery "pk >= 0");;
  w ← get_world;
  mret (output_fields <$> filter (λ e, 0 ≤ pk e) (collection w)).

(** Reading an attribute of a [MutationResult]: the class defines these
    properties and nothing else, so any other name is an
    [AttributeError]. *)
Definition MutationResult_getattr (r : MutationResult) (attr : string) : M PyVal :=
  if decide (attr = "primary_keys") then mret (PyList (mr_primary_keys r))
  else if decide (attr = "insert_count") then mret (PyInt (mr_insert_count r))
  else if decide (attr = "delete_count") then mret (PyInt (mr_delete_count r))
  else if decide (attr = "upsert_count") then mret (PyInt (mr_upsert_count r))
  else if decide (attr = "timestamp") then mret (PyInt (mr_timestamp r))
  else if decide (attr = "succ_count") then mret (PyInt (mr_succ_count r))
  else if decide (attr = "err_count") then mret (PyInt (mr_err_count r))
  else if decide (attr = "succ_index") then mret (PyList (mr_succ_index r))
  else if decide (attr = "err_index") then mret (PyList (mr_err_index r))
  else raise (AttributeError attr).

(** *** utils.py *)

(** [get_face_embedding]: [None] when no face is detected, otherwise the
    embedding of the first detected face.  [app_get] stands for the
    decoding of the bytes followed by the face model, on bytes that can be
    decoded. *)
Definition get_face_embedding (image_bytes : bytes) : M (option ndarray) :=
  emit (EvEmbed image_bytes);;
  let faces := app_get image_bytes in
  match faces with
  | [] => mret None
  | face0 :: _ => mret (Some (normed_embedding face0))
  end.

(** *** database.py *)

(** [uuid.uuid4()] rendered with [str]. *)
Definition uuid4_str : M string := λ w,
  let u := uuid4_source (uuid_draws w) in
  (Ok u, mkWorld (collection w) (next_pk w) (metadata w) (metadata_file w)
                 (S (uuid_draws w)) (flashes w) (log w ++ [EvUuid4 u])).

(** [metadata[key]] *)
Definition metadata_getitem (key : string) : M Z :=
  w ← get_world;
  match metadata w !! key with
  | Some n => mret n
  | None => raise (KeyError key)
  end.

(** [metadata[key] = n] *)
Definition metadata_setitem (key : string) (n : Z) : M unit := λ w,
  (Ok tt, mkWorld (collection w) (next_pk w) (<[key := n]> (metadata w))
                  (metadata_file w) (uuid_draws w) (flashes w) (log w)).

(** [init_milvus], as far as the state it leaves is concerned: the
    metadata is read back from its file when the file exists and reset to
    [{"last_user_id": 0}] when it does not; the collection is created
    only when missing, so its entities are kept.  The source does all of
    this twice in a row, which changes nothing. *)
Definition load_metadata : M unit := λ w,
  (Ok tt, mkWorld (collection w) (next_pk w)
                  (match metadata_file w with
                   | Some content => content
                   | None => {[ "last_user_id" := 0 ]}
                   end)
                  (metadata_file w) (uuid_draws w) (flashes w) (log w)).

Definition init_milvus : M unit :=
  load_metadata;;
  load_metadata.

(** [save_metadata]: writes the dict to [instance/metadata.json]. *)
Definition save_metadata : M unit := λ w,
  (Ok tt, mkWorld (collection w) (next_pk w) (metadata w) (Some (metadata w))
                  (uuid_draws w) (flashes w)
                  (log w ++ [EvMetadataSaved (metadata w)])).

(** [get_next_human_id] *)
Definition get_next_human_id : M string :=
  n ← metadata_getitem "last_user_id";
  metadata_setitem "last_user_id" (n + 1);;
  save_metadata;;
  n' ← metadata_getitem "last_user_id";
  mret ("fr" +:+ pretty n').

(** [add_user] *)
Definition add_user (nm : string) (avg_embedding : ndarray) : M (string * string) :=
  uuid ← uuid4_str;
  hid ← get_next_human_id;
  collection_insert avg_embedding uuid nm hid;;
  collection_flush;;
  mret (uuid, hid).

(** The four-tuple [find_similar_user] returns. *)
Definition Match : Type := option string * option string * option string * option Qc.
Definition no_match : Match := (None, None, None, None).

(** [find_similar_user] *)
Definition find_similar_user (emb : ndarray) (threshold : Qc) : M Match :=
  results ← collection_search [emb];
  match results with
  | [] => mret no_match
  | [] :: _ => mret no_match
  | (top_hit :: _) :: _ =>
      let d := distance top_hit in
      if decide (d < threshold)%Qc
      then mret (entity top_hit !! "user_uuid",
                 entity top_hit !! "name",
                 entity top_hit !! "human_id",
                 Some d)
      else mret no_match
  end.

(** [delete_user] *)
Definition delete_user (uuid : string) : M PyVal :=
  let expr := "user_uuid == '" +:+ uuid +:+ "'" in
  result ← collection_delete expr;
  collection_flush;;
  MutationResult_getattr result "delete_coun".

(** [r[key]] on a row returned by [collection.query]. *)
Definition row_getitem (r : gmap string string) (key : string) : M string :=
  match r !! key with
  | Some v => mret v
  | None => raise (KeyError key)
  end.

(** [get_all_users] *)
Definition get_all_users : M (list (gmap string string)) :=
  results ← collection_query_all;
  mapM (λ r,
          uuid ← row_getitem r "user_uuid";
          nm ← row_getitem r "name";
          hid ← row_getitem r "human_id";
          mret ({[ "uuid" := uuid; "name" := nm; "human_id" := hid ]}
                : gmap string string))
       results.

(** *** app.py *)

(** [app.DISTANCE_THRESHOLD = 1.1] *)
Definition DISTANCE_THRESHOLD : Qc := (Qc_of_Z 11 / Qc_of_Z 10)%Qc.

(** The body of the [for image_file in image_files] loop of
    [api_register], with [embeddings] as the list built so far.  The loop
    either leaves through the [return] on a missing face ([inl]) or runs
    to its end ([inr]). *)
Fixpoint register_loop (image_files : list FileStorage) (embeddings : list ndarray)
    : M (Response * Z + list ndarray) :=
  match image_files with
  | [] => mret (inr embeddings)
  | image_file :: rest =>
      if decide (filename image_file = "") then register_loop rest embeddings
      else
        let image_bytes := stream image_file in
        emb ← get_face_embedding image_bytes;
        match emb with
        | None =>
            mret (inl ([("error",
                         JStr ("No face detected in one of the images ('"
                               +:+ filename image_file +:+ "')."))], 400))
        | Some e => register_loop rest (embeddings ++ [e])
        end
  end.

(** [api_register] *)
Definition api_register (request : Request) : M (Response * Z) :=
  let image_files := getlist "image" (files request) in
  if negb (opt_str_truthy (multidict_get "name" (form request)))
  then mret ([("error", JStr "Missing name")], 400)
  else if negb (bool_decide (2 ≤ length image_files ≤ 4)%nat)
  then mret ([("error",
               JStr ("Please upload between 2 and 4 images. You uploaded "
                     +:+ pretty (length image_files) +:+ "."))], 400)
  else
    let nm := default "" (multidict_get "name" (form request)) in
    looped ← register_loop image_files [];
    match looped with
    | inl early => mret early
    | inr embeddings =>
        if bool_decide (length embeddings < 2)%nat
        then mret ([("error", JStr "Fewer than 2 valid images were processed.")], 400)
        else
          let avg_embedding := np_mean_axis0 embeddings in
          '(uuid, hid) ← add_user nm avg_embedding;
          mret ([("success", JBool true);
                 ("message", JStr ("User '" +:+ nm
                                   +:+ "' registered successfully with ID "
                                   +:+ hid +:+ "."));
                 ("uuid", JStr uuid);
                 ("human_id", JStr hid)], 201)
    end.

(** [api_authenticate] *)
Definition api_authenticate (request : Request) : M (Response * Z) :=
  match multidict_get "image" (files request) with
  | None => mret ([("error", JStr "Missing image")], 400)
  | Some image =>
      if negb (file_truthy image)
      then mret ([("error", JStr "Missing image")], 400)
      else
        emb ← get_face_embedding (stream image);
        match emb with
        | None =>
            mret ([("authenticated", JBool false);
                   ("message", JStr "No face detected")], 200)
        | Some e =>
            '(uuid, nm, hid, d) ← find_similar_user e DISTANCE_THRESHOLD;
            if opt_str_truthy nm
            then
              match d with
              | None => raise (TypeError "float() argument must be a number")
              | Some dist =>
                  mret ([("authenticated", JBool true);
                         ("message",
                          JStr ("Authentication successful. Welcome, "
                                +:+ default "None" nm +:+ ". Your ID is "
                                +:+ default "None" hid +:+ "."));
                         ("uuid", json_opt_str uuid);
                         ("name", json_opt_str nm);
                         ("human_id", json_opt_str hid);
                         ("distance", JNum dist)], 200)
              end
            else mret ([("authenticated", JBool false);
                        ("message", JStr "User not recognized")], 200)
        end
  end.

(** [index] *)
Definition index : M WebResult :=
  users ← get_all_users;
  mret (Render "index.html" users).

(** [register_page] *)
Definition register_page (request : Request) : M WebResult :=
  if decide (method request = "POST")
  then
    '(response, status_code) ← api_register request;
    (if decide (status_code = 201)
     then flash (response_get "message" "Registration successful!" response) "success"
     else flash (response_get "error" "An unknown error occurred." response) "danger");;
    mret (Redirect "index")
  else mret (Render "register.html" []).

(** [authenticate_page] *)
Definition authenticate_page (request : Request) : M WebResult :=
  if decide (method request = "POST")
  then
    '(response, status_code) ← api_authenticate request;
    (if from_option json_truthy false (multidict_get "authenticated" response)
     then flash (response_get "message" "Authentication Successful!" response) "success"
     else flash (response_get "message" "Authentication Failed." response) "danger");;
    mret (Redirect "index")
  else mret (Render "authenticate.html" []).

(** [delete_user_page] *)
Definition delete_user_page (uuid : string) : M WebResult :=
  success ← delete_user uuid;
  (if py_truthy success
   then flash "User deleted successfully." "success"
   else flash "Error: User not found." "danger");;
  mret (Redirect "index").

(** *** Vocabulary of the statements *)

(** What the adapter answers for an uploaded file, without the logging. *)
Definition embedding_of (f : FileStorage) : option ndarray :=
  normed_embedding <$> head (app_get (stream f)).

(** The uploaded files the enrollment loop hands to the adapter. *)
Definition processed (image_files : list FileStorage) : list FileStorage :=
  filter (λ f, filename f ≠ "") image_files.

(** A processed file in which the adapter finds no face. *)
Definition faceless (f : FileStorage) : Prop :=
  filename f ≠ "" ∧ embedding_of f = None.

Global Instance faceless_dec f : Decision (faceless f).
Proof. unfold faceless. apply _. Defined.

(** The files the loop hands to the adapter before it stops: every
    processed file up to and including the first one without a face, or
    all of them when there is none. *)
Definition attempted (image_files : list FileStorage) : list FileStorage :=
  match list_find faceless image_files with
  | Some (i, _) => processed (take (S i) image_files)
  | None => processed image_files
  end.

(** The calls of the adapter that the loop makes. *)
Definition embed_events (image_files : list FileStorage) : list Event :=
  (λ f, EvEmbed (stream f)) <$> attempted image_files.

(** One request served, or one restart of the process. *)
Inductive step : World → World → Prop :=
  | step_restart w :
      step w (world_after (init_milvus w))
  | step_api_register request w :
      step w (world_after (api_register request w))
  | step_api_authenticate request w :
      step w (world_after (api_authenticate request w))
  | step_index w :
      step w (world_after (index w))
  | step_register_page request w :
      step w (world_after (register_page request w))
  | step_authenticate_page request w :
      step w (world_after (authenticate_page request w))
  | step_delete_user_page uuid w :
      step w (world_after (delete_user_page uuid w)).

(** The worlds a fresh installation can get into. *)
Definition reachable (w : World) : Prop := rtc step fresh_world w.

End Program.

(** The value of the sequential counter. *)
Definition last_user_id (w : World) : option Z := metadata w !! "last_user_id".

(** The label that goes with a counter value. *)
Definition label_of (n : Z) : string := "fr" +:+ pretty n.

(** The counter values that have been persisted, hence handed out, so far. *)
Definition allocated (l : list Event) : list Z :=
  omap (λ ev, match ev with
              | EvMetadataSaved content => content !! "last_user_id"
              | _ => None
              end) l.

(** The entities that were ever inserted, deleted or not. *)
Definition inserted (l : list Event) : list Entity :=
  omap (λ ev, match ev with EvInsert e => Some e | _ => None end) l.

(** An enrollment that answers 201. *)
Definition enrolled (r : Res (Response * Z) * World) : Prop :=
  ∃ body, outcome r = Ok (body, 201).

(** The world [w] with [evs] appended to its log and nothing else changed. *)
Definition logged (w : World) (evs : list Event) : World :=
  mkWorld (collection w) (next_pk w) (metadata w) (metadata_file w)
          (uuid_draws w) (flashes w) (log w ++ evs).

(** The answer of [api_register] when the adapter finds no face in the
    file called [fname]. *)
Definition no_face_error (fname : string) : Response * Z :=
  ([("error", JStr ("No face detected in one of the images ('" +:+ fname +:+ "')."))],
   400).

(** The answer of [api_register] after the enrollment of [nm] under the
    identifiers [uuid] and [hid]. *)
Definition registered (nm uuid hid : string) : Response * Z :=
  ([("success", JBool true);
    ("message", JStr ("User '" +:+ nm +:+ "' registered successfully with ID "
                      +:+ hid +:+ "."));
    ("uuid", JStr uuid);
    ("human_id", JStr hid)],
   201).

(** The world [add_user] leaves when the counter stood at [c] and the
    entity [e] was inserted. *)
Definition after_add_user (w : World) (c : Z) (e : Entity) : World :=
  let saved := <["last_user_id" := c + 1]> (metadata w) in
  mkWorld (collection w ++ [e]) (next_pk w + 1) saved (Some saved)
          (S (uuid_draws w)) (flashes w)
          (log w ++ [EvUuid4 (user_uuid e); EvMetadataSaved saved; EvInsert e; EvFlush]).

(** The world [add_user] leaves when the counter stood at [c] and the
    engine refused the insertion: the uuid [u] is drawn and the counter is
    saved, nothing is inserted or flushed. *)
Definition after_refused_insert (w : World) (c : Z) (u : string) : World :=
  let saved := <["last_user_id" := c + 1]> (metadata w) in
  mkWorld (collection w) (next_pk w) saved (Some saved)
          (S (uuid_draws w)) (flashes w)
          (log w ++ [EvUuid4 u; EvMetadataSaved saved]).

(** The answer of [api_register] when too few embeddings are left. *)
Definition too_few_error : Response * Z :=
  ([("error", JStr "Fewer than 2 valid images were processed.")], 400).

(** The answer of [api_authenticate] when the entity [e] matched at
    distance [d]. *)
Definition welcome (e : Entity) (d : Qc) : Response * Z :=
  ([("authenticated", JBool true);
    ("message", JStr ("Authentication successful. Welcome, " +:+ name e
                      +:+ ". Your ID is " +:+ human_id e +:+ "."));
    ("uuid", JStr (user_uuid e));
    ("name", JStr (name e));
    ("human_id", JStr (human_id e));
    ("distance", JNum d)],
   200).

(** What holds of every world the program gets into: the counter [c] is
    the only entry of [metadata]; the file holds the same dict, or does not
    exist yet while [c] is still 0; the values persisted so far are
    [1, ..., c] in this order; the labels of the entities inserted so far
    are labels of these values, in increasing order and none twice; every
    inserted entity has a name; and the collection holds only entities that
    were inserted. *)
Definition consistent (w : World) : Prop :=
  ∃ c : Z,
    0 ≤ c
    ∧ metadata w = {[ "last_user_id" := c ]}
    ∧ (metadata_file w = Some (metadata w) ∨ (metadata_file w = None ∧ c = 0))
    ∧ allocated (log w) = seqZ 1 c
    ∧ human_id <$> inserted (log w) `sublist_of` label_of <$> seqZ 1 c
    ∧ Forall (λ e, name e ≠ "") (inserted (log w))
    ∧ collection w ⊆ inserted (log w).

(** [w'] differs from [w] by nothing that matters to the counter or to
    the set of enrolled identities: no allocation, no insertion, at most
    some entities deleted. *)
Definition calm (w w' : World) : Prop :=
  metadata w' = metadata w
  ∧ metadata_file w' = metadata_file w
  ∧ allocated (log w') = allocated (log w)
  ∧ inserted (log w') = inserted (log w)
  ∧ collection w' ⊆ collection w.

(** [w'] comes from [w] by at most one allocation of a label, followed
    or not by the insertion of the entity that bears it. *)
Definition grows (w w' : World) : Prop :=
  calm w w'
  ∨ (∃ w1 c e,
       calm w w1 ∧ last_user_id w1 = Some c
       ∧ name e ≠ "" ∧ human_id e = label_of (c + 1)
       ∧ calm (after_add_user w1 c e) w')
  ∨ (∃ w1 c u,
       calm w w1 ∧ last_user_id w1 = Some c
       ∧ calm (after_refused_insert w1 c u) w').

(** An action that is a call of the adapter. *)
Definition is_embed (ev : Event) : Prop := ∃ b, ev = EvEmbed b.

(** The sum of a list of rationals. *)
Definition Qc_sum (l : list Qc) : Qc := foldr Qcplus 0%Qc l.

(** The three answers of [api_authenticate] that are not a welcome. *)
Definition missing_image : Response * Z :=
  ([("error", JStr "Missing image")], 400).

Definition no_face_answer : Response * Z :=
  ([("authenticated", JBool false); ("message", JStr "No face detected")], 200).

Definition not_recognized : Response * Z :=
  ([("authenticated", JBool false); ("message", JStr "User not recognized")], 200).

(** An action that is a search of the index. *)
Definition is_search (ev : Event) : Prop := ∃ q, ev = EvSearch q.


(** An identifier without a quote or a backslash, the characters that
    would end or escape the string literal of a filter expression.  The
    text of a uuid is of this kind. *)
Fixpoint plain (s : string) : bool :=
  match s with
  | EmptyString => true
  | String c s' =>
      negb (bool_decide (c = "'"%char)) && negb (bool_decide (c = "\"%char))
      && plain s'
  end.


(** The dictionary [get_all_users] builds for a stored entity. *)
Definition user_row (e : Entity) : gmap string string :=
  {[ "uuid" := user_uuid e; "name" := name e; "human_id" := human_id e ]}.

(** How the serving of one request can change the store: either nothing
    is inserted (entities may be deleted, uuids may be drawn), or exactly
    one entity is appended, under the next primary key and the next uuid. *)
Definition store_step (uuid4_source : nat → string) (w w' : World) : Prop :=
  (collection w' `sublist_of` collection w
   ∧ next_pk w' = next_pk w
   ∧ (uuid_draws w ≤ uuid_draws w')%nat
   ∧ inserted (log w') = inserted (log w))
  ∨ ∃ e : Entity,
      collection w' = collection w ++ [e]
      ∧ pk e = next_pk w
      ∧ next_pk w' = next_pk w + 1
      ∧ user_uuid e = uuid4_source (uuid_draws w)
      ∧ uuid_draws w' = S (uuid_draws w)
      ∧ inserted (log w') = inserted (log w) ++ [e].

(** What holds of the store in every world the program gets into: the
    collection is what is left, in order, of the entities inserted so far;
    their primary keys are [1, 2, ...] up to the next key; and their
    external ids were drawn, in order, from the entropy source. *)
Definition tidy (uuid4_source : nat → string) (w : World) : Prop :=
  collection w `sublist_of` inserted (log w)
  ∧ 1 ≤ next_pk w
  ∧ pk <$> inserted (log w) = seqZ 1 (next_pk w - 1)
  ∧ user_uuid <$> inserted (log w)
      `sublist_of` uuid4_source <$> seq 0 (uuid_draws w).


(** ** Concrete collaborators

    A small adapter, entropy source and metric, on which the statements
    below are exercised. *)
Module Demo.

Definition constant (z : Z) : ndarray :=
  vreplicate EMBEDDING_DIMENSION (Qc_of_Z z).

(** An image shows no face when it is empty or starts with a zero byte;
    otherwise it shows one face, whose embedding repeats the value of the
    first byte. *)
Definition app_get (image_bytes : bytes) : list Face :=
  match image_bytes with
  | [] => []
  | b :: _ =>
      if Byte.eqb b Byte.x00 then []
      else [mkFace (constant (Z.of_N (Byte.to_N b)))]
  end.

Definition uuid4_source (n : nat) : string := "uuid-" +:+ pretty n.

(** The sum of the squared differences. *)
Definition l2 (a b : ndarray) : Qc :=
  Qc_sum (vec_to_list (vzip_with (λ x y, ((x - y) * (x - y))%Qc) a b)).

Definition upload (fname : string) (b : Byte.byte) : string * FileStorage :=
  ("image", mkFile fname [b]).

Definition enroll_alice : Request :=
  mkRequest "POST" [("name", "Alice")]
            [upload "a.jpg" Byte.x01; upload "b.jpg" Byte.x03].

Definition alice_world : World :=
  world_after (api_register app_get uuid4_source enroll_alice fresh_world).

Definition photo (b : Byte.byte) : Request :=
  mkRequest "POST" [] [upload "q.jpg" b].

(** An empty file name, two good photos and one without a face. *)
Definition enroll_with_bad_photo : Request :=
  mkRequest "POST" [("name", "Bob")]
            [upload "" Byte.x01; upload "a.jpg" Byte.x01;
             upload "b.jpg" Byte.x03; upload "c.jpg" Byte.x00].

(** An empty file name, one good photo and one without a face. *)
Definition enroll_with_one_good_photo : Request :=
  mkRequest "POST" [("name", "Bob")]
            [upload "" Byte.x01; upload "a.jpg" Byte.x01; upload "c.jpg" Byte.x00].

(** Two empty file names and one good photo. *)
Definition enroll_mostly_unnamed : Request :=
  mkRequest "POST" [("name", "Bob")]
            [upload "" Byte.x01; upload "" Byte.x02; upload "a.jpg" Byte.x01].

Definition enroll_nameless : Request :=
  mkRequest "POST" [("name", "")]
            [upload "a.jpg" Byte.x01; upload "b.jpg" Byte.x03].

(** The entity Alice's enrollment inserts. *)
Definition alice : Entity :=
  mkEntity 1 (np_mean_axis0 [constant 1; constant 3]) "uuid-0" "Alice" "fr1".

(** Alice's request with the two photos in the other order. *)
Definition enroll_alice_swapped : Request :=
  mkRequest "POST" [("name", "Alice")]
            [upload "b.jpg" Byte.x03; upload "a.jpg" Byte.x01].

(** A fresh installation whose metadata file is an empty JSON object. *)
Definition keyless_world : World :=
  mkWorld [] 1 {[ "last_user_id" := 0 ]} (Some ∅) 0 [] [].


(** A name of 256 characters, one more than the schema's [name] field
    holds, with two good photos. *)
Definition long_name : string := Nat.iter 256 (String "a"%char) "".

Definition enroll_long_name : Request :=
  mkRequest "POST" [("name", long_name)]
            [upload "a.jpg" Byte.x01; upload "b.jpg" Byte.x03].

End Demo.

(** ** Properties *)

Section Properties.

Variable app_get : bytes → list Face.
Variable uuid4_source : nat → string.
Variable l2 : ndarray → ndarray → Qc.

(** *** Running computations *)

Lemma run_bind {A B : Type} (m : M A) (f : A → M B) (w : World) :
  (m ≫= f) w =
    match m w with
    | (Ok a, w') => f a w'
    | (Raise e, w') => (Raise e, w')
    end.
Proof. reflexivity. Qed.

Lemma run_ret {A : Type} (a : A) (w : World) : (mret a : M A) w = (Ok a, w).
Proof. reflexivity. Qed.

Lemma logged_nil w : logged w [] = w.
Proof. destruct w. unfold logged. simpl. by rewrite app_nil_r. Qed.

Lemma logged_logged w evs1 evs2 :
  logged (logged w evs1) evs2 = logged w (evs1 ++ evs2).
Proof. unfold logged. simpl. by rewrite app_assoc. Qed.

Lemma get_face_embedding_run image_bytes w :
  get_face_embedding app_get image_bytes w =
    (Ok (normed_embedding <$> head (app_get image_bytes)),
     logged w [EvEmbed image_bytes]).
Proof.
  unfold get_face_embedding. rewrite run_bind. simpl.
  by destruct (app_get image_bytes).
Qed.

Lemma collection_search_run q w :
  collection_search l2 [q] w =
    (Ok [match nearest l2 q (collection w) with
         | Some (e, d) => [mkHit d (output_fields e)]
         | None => []
         end],
     logged w [EvSearch q]).
Proof. reflexivity. Qed.

(** *** The search *)

Lemma nearest_None q es : nearest l2 q es = None ↔ es = [].
Proof.
  destruct es as [|e es]; simpl; [done|].
  destruct (nearest l2 q es) as [[e' d']|]; [case_decide|]; done.
Qed.

Lemma nearest_closest q es e d :
  nearest l2 q es = Some (e, d) →
  e ∈ es ∧ d = l2 q (embedding e) ∧
  ∀ e', e' ∈ es → (d ≤ l2 q (embedding e'))%Qc.
Proof.
  revert e d. induction es as [|a es IH]; intros e d; simpl; [done|].
  destruct (nearest l2 q es) as [[e1 d1]|] eqn:Hn.
  - destruct (IH e1 d1 eq_refl) as (Hin & Hd & Hmin).
    case_decide as Hlt; intros [= <- <-].
    + split; [by right|]. split; [done|].
      intros e' [->|He']%elem_of_cons; [by apply Qclt_le_weak | by apply Hmin].
    + split; [by left|]. split; [done|].
      intros e' [->|He']%elem_of_cons; [apply Qcle_refl|].
      apply Qcle_trans with d1; [by apply Qcnot_lt_le | by apply Hmin].
  - intros [= <- <-]. apply nearest_None in Hn as ->.
    split; [by left|]. split; [done|].
    intros e' [->|He']%elem_of_cons; [apply Qcle_refl | by inversion He'].
Qed.

Lemma output_fields_lookup e :
  output_fields e !! "user_uuid" = Some (user_uuid e) ∧
  output_fields e !! "name" = Some (name e) ∧
  output_fields e !! "human_id" = Some (human_id e).
Proof. unfold output_fields. by simplify_map_eq. Qed.

Lemma find_similar_user_run q threshold w :
  find_similar_user l2 q threshold w =
    (Ok (match nearest l2 q (collection w) with
         | Some (e, d) =>
             if decide (d < threshold)%Qc
             then (Some (user_uuid e), Some (name e), Some (human_id e), Some d)
             else no_match
         | None => no_match
         end),
     logged w [EvSearch q]).
Proof.
  unfold find_similar_user. rewrite run_bind, collection_search_run.
  destruct (nearest l2 q (collection w)) as [[e d]|]; [|done].
  simpl. case_decide; [|done].
  destruct (output_fields_lookup e) as (-> & -> & ->). done.
Qed.

(** C2.  For every query vector, every threshold and every state of the
    store, [find_similar_user] answers with the fields of the closest
    stored entity and its distance exactly when that distance is strictly
    below the threshold, and with four [None]s otherwise, in particular
    when the store is not empty but its closest entity is too far.  The
    entity it looks at is in the store, the distance is the one the index
    reports for it, and no stored entity is closer. *)
Theorem find_similar_user_thresholded_nearest
    (q : ndarray) (threshold : Qc) (w : World) :
  outcome (find_similar_user l2 q threshold w) =
    Ok (match nearest l2 q (collection w) with
        | Some (e, d) =>
            if decide (d < threshold)%Qc
            then (Some (user_uuid e), Some (name e), Some (human_id e), Some d)
            else no_match
        | None => no_match
        end)
  ∧ (nearest l2 q (collection w) = None ↔ collection w = [])
  ∧ (∀ e d, nearest l2 q (collection w) = Some (e, d) →
       e ∈ collection w ∧ d = l2 q (embedding e) ∧
       ∀ e', e' ∈ collection w → (d ≤ l2 q (embedding e'))%Qc).
Proof.
  split; [by rewrite find_similar_user_run|].
  split; [apply nearest_None | apply nearest_closest].
Qed.

(** *** Deletion *)

Lemma MutationResult_getattr_delete_coun r w :
  MutationResult_getattr r "delete_coun" w = (Raise (AttributeError "delete_coun"), w).
Proof. reflexivity. Qed.

(** Whatever the identifier and the state of the store, [delete_user]
    ends in an exception; it never hands a value to its caller. *)
Lemma delete_user_never_returns uuid w :
  ∃ e, outcome (delete_user uuid w) = Raise e.
Proof.
  unfold delete_user, collection_delete.
  rewrite !run_bind. simpl.
  destruct (parse_uuid_filter _); simpl; eauto.
Qed.

(** C3, evaluated.  On a fresh, empty store [delete_user] applied to an
    identifier that matches nothing raises [AttributeError] instead of
    returning 0, and so does the page route that calls it.  After Alice
    has been enrolled, deleting her identifier removes her entity from
    the collection and then raises the same [AttributeError] instead of
    returning 1. *)
Theorem delete_user_raises_AttributeError :
  outcome (delete_user "no-such-id" fresh_world)
    = Raise (AttributeError "delete_coun")
  ∧ outcome (delete_user_page "no-such-id" fresh_world)
    = Raise (AttributeError "delete_coun")
  ∧ flashes (world_after (delete_user_page "no-such-id" fresh_world)) = []
  ∧ user_uuid <$> collection Demo.alice_world = ["uuid-0"]
  ∧ outcome (delete_user "uuid-0" Demo.alice_world)
    = Raise (AttributeError "delete_coun")
  ∧ collection (world_after (delete_user "uuid-0" Demo.alice_world)) = [].
Proof. repeat split; vm_compute; reflexivity. Qed.

(** *** Validation of an enrollment *)

Lemma api_register_bad_shape_run request w :
  multidict_get "name" (form request) = None
  ∨ multidict_get "name" (form request) = Some ""
  ∨ ¬ (2 ≤ length (getlist "image" (files request)) ≤ 4)%nat →
  ∃ body, api_register app_get uuid4_source request w = (Ok (body, 400), w).
Proof.
  intros H. unfold api_register.
  destruct (opt_str_truthy (multidict_get "name" (form request))) eqn:Hname; simpl.
  - destruct H as [H|[H|H]]; [by rewrite H in Hname .. |].
    rewrite bool_decide_eq_false_2 by done. simpl. eauto.
  - eauto.
Qed.

(** C6.  An enrollment request whose name is missing or empty, or whose
    number of uploaded images is not between 2 and 4, is answered with
    status 400 and leaves the world exactly as it was: nothing is
    inserted, no counter value is allocated or written, and the adapter
    is not called (the log of actions is unchanged). *)
Theorem api_register_rejects_bad_shape (request : Request) (w : World) :
  multidict_get "name" (form request) = None
  ∨ multidict_get "name" (form request) = Some ""
  ∨ ¬ (2 ≤ length (getlist "image" (files request)) ≤ 4)%nat →
  (∃ body, outcome (api_register app_get uuid4_source request w) = Ok (body, 400))
  ∧ world_after (api_register app_get uuid4_source request w) = w.
Proof.
  intros [body Hrun]%(api_register_bad_shape_run request w).
  rewrite Hrun. eauto.
Qed.

(** *** Authentication without a face *)

(** C7.  When the uploaded image of an authentication request carries a
    file name and the adapter finds no face in it, the answer is the
    normal response [authenticated = false], "No face detected", with
    status 200; the only action performed is the call of the adapter, so
    the store is not searched. *)
Theorem api_authenticate_no_face (request : Request) (image : FileStorage) (w : World) :
  multidict_get "image" (files request) = Some image →
  filename image ≠ "" →
  embedding_of app_get image = None →
  outcome (api_authenticate app_get l2 request w)
    = Ok ([("authenticated", JBool false); ("message", JStr "No face detected")], 200)
  ∧ world_after (api_authenticate app_get l2 request w)
    = logged w [EvEmbed (stream image)].
Proof.
  intros Himg Hname Hemb. unfold api_authenticate. rewrite Himg.
  unfold file_truthy, str_truthy. rewrite bool_decide_eq_true_2 by done. simpl.
  rewrite run_bind, get_face_embedding_run.
  unfold embedding_of in Hemb. rewrite Hemb. done.
Qed.

(** *** The aggregate *)

(** Each component of [np.mean(a, axis=0)] is the arithmetic mean of that
    component over the rows of [a]. *)
Lemma np_mean_axis0_lookup (a : list ndarray) (i : fin EMBEDDING_DIMENSION) :
  np_mean_axis0 a !!! i
    = (Qc_sum ((λ v : ndarray, v !!! i) <$> a) / Qc_of_Z (Z.of_nat (length a)))%Qc.
Proof.
  unfold np_mean_axis0. rewrite vlookup_map. f_equal.
  induction a as [|v a IH].
  - cbn [foldr]. unfold zeros. by rewrite vlookup_replicate.
  - cbn [foldr fmap list_fmap Qc_sum]. rewrite vlookup_zip_with. by rewrite IH.
Qed.
(** *** The enrollment loop *)

Lemma attempted_cons_skip f fs :
  filename f = "" → attempted app_get (f :: fs) = attempted app_get fs.
Proof.
  intros Hf. unfold attempted. cbn [list_find].
  rewrite decide_False by (intros [? _]; done).
  destruct (list_find _ fs) as [[i x]|]; cbn [fmap option_fmap option_map prod_map fst snd id].
  - unfold processed. cbn [take]. rewrite filter_cons.
    by rewrite decide_False by (intros ?; done).
  - unfold processed. rewrite filter_cons.
    by rewrite decide_False by (intros ?; done).
Qed.

Lemma attempted_cons_face f fs e :
  filename f ≠ "" → embedding_of app_get f = Some e →
  attempted app_get (f :: fs) = f :: attempted app_get fs.
Proof.
  intros Hf He. unfold attempted. cbn [list_find].
  rewrite decide_False by (intros [_ ?]; congruence).
  destruct (list_find _ fs) as [[i x]|]; cbn [fmap option_fmap option_map prod_map fst snd id].
  - unfold processed. cbn [take]. rewrite filter_cons. by rewrite decide_True.
  - unfold processed. rewrite filter_cons. by rewrite decide_True.
Qed.

Lemma attempted_cons_faceless f fs :
  filename f ≠ "" → embedding_of app_get f = None →
  attempted app_get (f :: fs) = [f].
Proof.
  intros Hf He. unfold attempted. cbn [list_find].
  rewrite decide_True by done.
  unfold processed. cbn [take]. rewrite filter_cons, take_0. by rewrite decide_True.
Qed.

(** The loop as a whole: it answers with the error about the first file
    without a face, or with the embeddings of all processed files, and
    what it does is call the adapter on the attempted files, in order. *)
Lemma register_loop_run image_files embeddings w :
  register_loop app_get image_files embeddings w =
    (match list_find (faceless app_get) image_files with
     | Some (_, f0) => Ok (inl (no_face_error (filename f0)))
     | None =>
         Ok (inr (embeddings
                  ++ omap (embedding_of app_get) (processed image_files)))
     end,
     logged w (embed_events app_get image_files)).
Proof.
  revert embeddings w.
  induction image_files as [|f fs IH]; intros embeddings w.
  - simpl. by rewrite app_nil_r, logged_nil.
  - cbn [register_loop list_find]. unfold processed, embed_events.
    rewrite filter_cons. fold (processed fs).
    destruct (decide (filename f = "")) as [Hempty|Hnamed].
    + rewrite IH, attempted_cons_skip by done.
      rewrite decide_False by (intros [? _]; done).
      rewrite decide_False by (intros ?; done).
      by destruct (list_find _ fs) as [[? ?]|].
    + rewrite run_bind, get_face_embedding_run.
      rewrite (decide_True (P := filename f ≠ "")) by done.
      fold (embedding_of app_get f).
      destruct (embedding_of app_get f) as [e|] eqn:He.
      * rewrite IH, (attempted_cons_face f fs e) by done.
        rewrite decide_False by (intros [_ ?]; congruence).
        rewrite logged_logged. cbn [omap list_omap]. rewrite He.
        destruct (list_find _ fs) as [[? ?]|]; simpl; [done|].
        by rewrite <- app_assoc.
      * rewrite attempted_cons_faceless by done.
        by rewrite decide_True by done.
Qed.

Lemma embed_events_are_embeds fs : Forall is_embed (embed_events app_get fs).
Proof.
  unfold embed_events. apply Forall_fmap, Forall_forall.
  intros f _. by eexists.
Qed.

(** When no processed file is faceless, every processed file has an
    embedding, and [omap] collects exactly these. *)
Lemma no_faceless_embeddings fs :
  list_find (faceless app_get) fs = None →
  Forall2 (λ f e, embedding_of app_get f = Some e)
          (processed fs) (omap (embedding_of app_get) (processed fs)).
Proof.
  intros Hnone. assert (Forall (λ f, ¬ faceless app_get f) fs) as Hall.
  { by apply list_find_None in Hnone. }
  clear Hnone. induction Hall as [|f fs Hf Hall IH]; [constructor|].
  unfold processed. rewrite filter_cons. fold (processed fs).
  destruct (decide (filename f ≠ "")) as [Hnamed|]; [|done].
  cbn [omap list_omap].
  destruct (embedding_of app_get f) as [e|] eqn:He.
  - by constructor.
  - destruct Hf. by split.
Qed.
(** *** The allocator and the insertion *)

Lemma get_next_human_id_run w c :
  last_user_id w = Some c →
  get_next_human_id w =
    (Ok (label_of (c + 1)),
     let saved := <["last_user_id" := c + 1]> (metadata w) in
     mkWorld (collection w) (next_pk w) saved (Some saved)
             (uuid_draws w) (flashes w) (log w ++ [EvMetadataSaved saved])).
Proof.
  unfold last_user_id. intros Hc.
  unfold get_next_human_id, metadata_getitem.
  rewrite run_bind. unfold get_world at 1. rewrite run_bind. rewrite Hc.
  rewrite run_ret, run_bind. unfold metadata_setitem at 1.
  rewrite run_bind. unfold save_metadata at 1.
  rewrite run_bind. unfold get_world at 1. rewrite run_bind.
  cbn [metadata]. rewrite lookup_insert_eq. done.
Qed.

Lemma get_next_human_id_KeyError w :
  last_user_id w = None →
  get_next_human_id w = (Raise (KeyError "last_user_id"), w).
Proof.
  unfold last_user_id. intros Hc.
  unfold get_next_human_id, metadata_getitem.
  rewrite run_bind. unfold get_world at 1. rewrite run_bind. by rewrite Hc.
Qed.

Lemma add_user_run nm avg w c :
  last_user_id w = Some c →
  within_schema (uuid4_source (uuid_draws w)) nm (label_of (c + 1)) →
  add_user uuid4_source nm avg w =
    (Ok (uuid4_source (uuid_draws w), label_of (c + 1)),
     after_add_user w c
       (mkEntity (next_pk w) avg (uuid4_source (uuid_draws w)) nm (label_of (c + 1)))).
Proof.
  intros Hc Hfits. unfold add_user.
  rewrite run_bind. unfold uuid4_str at 1.
  rewrite run_bind. erewrite get_next_human_id_run by exact Hc.
  unfold after_add_user. cbv zeta. rewrite run_bind.
  unfold collection_insert at 1. cbn [uuid_draws].
  rewrite decide_True by exact Hfits. rewrite run_bind.
  unfold collection_flush, emit. rewrite run_ret.
  cbn [collection next_pk metadata metadata_file uuid_draws flashes log user_uuid].
  by rewrite <- !app_assoc.
Qed.

Lemma add_user_refused nm avg w c :
  last_user_id w = Some c →
  ¬ within_schema (uuid4_source (uuid_draws w)) nm (label_of (c + 1)) →
  add_user uuid4_source nm avg w =
    (Raise (MilvusException "length of varchar field exceeds max length"),
     after_refused_insert w c (uuid4_source (uuid_draws w))).
Proof.
  intros Hc Hfits. unfold add_user.
  rewrite run_bind. unfold uuid4_str at 1.
  rewrite run_bind. erewrite get_next_human_id_run by exact Hc.
  unfold after_refused_insert. cbv zeta. rewrite run_bind.
  unfold collection_insert at 1. cbn [uuid_draws].
  rewrite decide_False by exact Hfits.
  cbn [collection next_pk metadata metadata_file uuid_draws flashes log].
  by rewrite <- !app_assoc.
Qed.

Lemma add_user_KeyError nm avg w :
  last_user_id w = None →
  add_user uuid4_source nm avg w =
    (Raise (KeyError "last_user_id"), world_after (uuid4_str uuid4_source w)).
Proof.
  intros Hc. unfold add_user.
  rewrite run_bind. unfold uuid4_str at 1.
  rewrite run_bind. rewrite get_next_human_id_KeyError by exact Hc.
  reflexivity.
Qed.

(** *** Enrollment, once the shape of the request is accepted *)

Lemma api_register_valid request w nm :
  multidict_get "name" (form request) = Some nm → nm ≠ "" →
  (2 ≤ length (getlist "image" (files request)) ≤ 4)%nat →
  api_register app_get uuid4_source request w =
    let image_files := getlist "image" (files request) in
    let w1 := logged w (embed_events app_get image_files) in
    match list_find (faceless app_get) image_files with
    | Some (_, f0) => (Ok (no_face_error (filename f0)), w1)
    | None =>
        let embeddings := omap (embedding_of app_get) (processed image_files) in
        if decide (length embeddings < 2)%nat then (Ok too_few_error, w1)
        else
          match last_user_id w with
          | Some c =>
              let uuid := uuid4_source (uuid_draws w) in
              let hid := label_of (c + 1) in
              if decide (within_schema uuid nm hid)
              then
                (Ok (registered nm uuid hid),
                 after_add_user w1 c
                   (mkEntity (next_pk w) (np_mean_axis0 embeddings) uuid nm hid))
              else
                (Raise (MilvusException "length of varchar field exceeds max length"),
                 after_refused_insert w1 c uuid)
          | None =>
              (Raise (KeyError "last_user_id"),
               world_after (uuid4_str uuid4_source w1))
          end
    end.
Proof.
  intros Hname Hnm Hcount. unfold api_register. rewrite Hname.
  cbn [opt_str_truthy]. unfold str_truthy.
  rewrite bool_decide_eq_true_2 by done.
  rewrite (bool_decide_eq_true_2 _ Hcount). cbn [negb default from_option id].
  rewrite run_bind, register_loop_run.
  destruct (list_find _ _) as [[i f0]|]; [done|].
  rewrite app_nil_l. cbv zeta.
  case_bool_decide as Hfew.
  - by rewrite decide_True by done.
  - rewrite decide_False by done. rewrite run_bind.
    destruct (last_user_id w) as [c|] eqn:Hc.
    + destruct (decide (within_schema _ nm _)) as [Hfits|Hfits].
      * by erewrite add_user_run by (exact Hc || exact Hfits).
      * by erewrite add_user_refused by (exact Hc || exact Hfits).
    + by rewrite add_user_KeyError by exact Hc.
Qed.
(** *** Enrollment with a faceless image *)

(** C5.  When the request has a name and between 2 and 4 images, and
    [f0] is the first image handed to the adapter in which it finds no
    face, the enrollment is answered with status 400 and the error message
    that quotes the file name of [f0].  All that happened is the calls of
    the adapter up to [f0]: the collection is unchanged, so no entity was
    inserted, and the counter, its file and the persisted values are
    unchanged, so no label was allocated. *)
Theorem api_register_no_face_aborts
    (request : Request) (w : World) (nm : string) (i : nat) (f0 : FileStorage) :
  multidict_get "name" (form request) = Some nm → nm ≠ "" →
  (2 ≤ length (getlist "image" (files request)) ≤ 4)%nat →
  list_find (faceless app_get) (getlist "image" (files request)) = Some (i, f0) →
  outcome (api_register app_get uuid4_source request w)
    = Ok ([("error", JStr ("No face detected in one of the images ('"
                           +:+ filename f0 +:+ "')."))], 400)
  ∧ world_after (api_register app_get uuid4_source request w)
    = logged w (embed_events app_get (getlist "image" (files request)))
  ∧ collection (world_after (api_register app_get uuid4_source request w))
    = collection w
  ∧ metadata (world_after (api_register app_get uuid4_source request w))
    = metadata w
  ∧ metadata_file (world_after (api_register app_get uuid4_source request w))
    = metadata_file w
  ∧ uuid_draws (world_after (api_register app_get uuid4_source request w))
    = uuid_draws w.
Proof.
  intros Hname Hnm Hcount Hfind.
  rewrite (api_register_valid request w nm Hname Hnm Hcount).
  cbv zeta. rewrite Hfind. done.
Qed.

(** *** Successful enrollment *)

Lemma api_register_enrolled request w :
  enrolled (api_register app_get uuid4_source request w) →
  ∃ nm c,
    multidict_get "name" (form request) = Some nm ∧ nm ≠ ""
    ∧ (2 ≤ length (getlist "image" (files request)) ≤ 4)%nat
    ∧ list_find (faceless app_get) (getlist "image" (files request)) = None
    ∧ (2 ≤ length (omap (embedding_of app_get)
                        (processed (getlist "image" (files request)))))%nat
    ∧ last_user_id w = Some c
    ∧ api_register app_get uuid4_source request w =
        (Ok (registered nm (uuid4_source (uuid_draws w)) (label_of (c + 1))),
         after_add_user
           (logged w (embed_events app_get (getlist "image" (files request)))) c
           (mkEntity (next_pk w)
              (np_mean_axis0 (omap (embedding_of app_get)
                                (processed (getlist "image" (files request)))))
              (uuid4_source (uuid_draws w)) nm (label_of (c + 1)))).
Proof.
  intros [body Hok].
  destruct (decide (2 ≤ length (getlist "image" (files request)) ≤ 4)%nat)
    as [Hcount|Hcount]; last first.
  { destruct (api_register_bad_shape_run request w) as [b Hb]; [by right; right|].
    rewrite Hb in Hok. discriminate. }
  destruct (multidict_get "name" (form request)) as [nm|] eqn:Hname; last first.
  { destruct (api_register_bad_shape_run request w) as [b Hb]; [by left|].
    rewrite Hb in Hok. discriminate. }
  destruct (decide (nm = "")) as [->|Hnm].
  { destruct (api_register_bad_shape_run request w) as [b Hb]; [by right; left|].
    rewrite Hb in Hok. discriminate. }
  pose proof (api_register_valid request w nm Hname Hnm Hcount) as Hrun.
  cbv zeta in Hrun.
  destruct (list_find _ _) as [[i f0]|] eqn:Hfind.
  { rewrite Hrun in Hok. discriminate. }
  destruct (decide (length _ < 2)%nat) as [Hfew|Hfew].
  { rewrite Hrun in Hok. discriminate. }
  destruct (last_user_id w) as [c|] eqn:Hc.
  - destruct (decide (within_schema _ nm _)) as [Hfits|Hfits].
    + exists nm, c. split_and!; try done; lia.
    + rewrite Hrun in Hok. discriminate.
  - rewrite Hrun in Hok. discriminate.
Qed.

(** C1.  After a successful enrollment the collection holds one more
    entity.  Its signature is [np.mean] of the embeddings [es] that the
    adapter produced for the processed files, one per file and in their
    order; there are between 2 and 4 of them; and each component of the
    signature is the sum of that component over [es] divided by the number
    of embeddings. *)
Theorem enrollment_stores_mean (request : Request) (w : World) :
  enrolled (api_register app_get uuid4_source request w) →
  ∃ (es : list ndarray) (e : Entity),
    Forall2 (λ f v, embedding_of app_get f = Some v)
            (processed (getlist "image" (files request))) es
    ∧ (2 ≤ length es ≤ 4)%nat
    ∧ collection (world_after (api_register app_get uuid4_source request w))
      = collection w ++ [e]
    ∧ embedding e = np_mean_axis0 es
    ∧ ∀ i : fin EMBEDDING_DIMENSION,
        embedding e !!! i
        = (Qc_sum ((λ v : ndarray, v !!! i) <$> es)
           / Qc_of_Z (Z.of_nat (length es)))%Qc.
Proof.
  intros (nm & c & Hname & Hnm & Hcount & Hfind & Hlen & Hc & Hrun)%api_register_enrolled.
  pose proof (no_faceless_embeddings _ Hfind) as Hall.
  eexists _, _. split; [exact Hall|].
  split.
  { split; [done|]. rewrite <- (Forall2_length _ _ _ Hall).
    pose proof (length_filter (λ f, filename f ≠ "") (getlist "image" (files request))).
    unfold processed. lia. }
  rewrite Hrun. split; [reflexivity|]. split; [reflexivity|].
  intros i. apply np_mean_axis0_lookup.
Qed.
(** *** What the log records *)

Lemma allocated_app la lb : allocated (la ++ lb) = allocated la ++ allocated lb.
Proof. apply omap_app. Qed.

Lemma inserted_app la lb : inserted (la ++ lb) = inserted la ++ inserted lb.
Proof. apply omap_app. Qed.

Lemma embeds_allocate_nothing evs : Forall is_embed evs → allocated evs = [].
Proof.
  induction 1 as [|ev evs [b ->] _ IH]; [done|]. unfold allocated. simpl. exact IH.
Qed.

Lemma embeds_insert_nothing evs : Forall is_embed evs → inserted evs = [].
Proof.
  induction 1 as [|ev evs [b ->] _ IH]; [done|]. unfold inserted. simpl. exact IH.
Qed.

Lemma inserted_embed_events fs : inserted (embed_events app_get fs) = [].
Proof. apply embeds_insert_nothing, embed_events_are_embeds. Qed.

Lemma allocated_embed_events fs : allocated (embed_events app_get fs) = [].
Proof. apply embeds_allocate_nothing, embed_events_are_embeds. Qed.

(** C9.  A successful enrollment appends exactly one entity to the
    collection.  Its external id is the uuid drawn during this call (the
    next one of the entropy source, which is consumed), its label is the
    one allocated during this call (the counter stood at [c] and now stands
    at [c + 1]), its name is the submitted one, and the response carries
    this entity's external id and label.  It is the only insertion the
    call makes. *)
Theorem enrollment_inserts_one_record (request : Request) (w : World) :
  enrolled (api_register app_get uuid4_source request w) →
  ∃ (e : Entity) (c : Z),
    collection (world_after (api_register app_get uuid4_source request w))
      = collection w ++ [e]
    ∧ inserted (log (world_after (api_register app_get uuid4_source request w)))
      = inserted (log w) ++ [e]
    ∧ user_uuid e = uuid4_source (uuid_draws w)
    ∧ uuid_draws (world_after (api_register app_get uuid4_source request w))
      = S (uuid_draws w)
    ∧ last_user_id w = Some c
    ∧ human_id e = label_of (c + 1)
    ∧ last_user_id (world_after (api_register app_get uuid4_source request w))
      = Some (c + 1)
    ∧ multidict_get "name" (form request) = Some (name e)
    ∧ outcome (api_register app_get uuid4_source request w)
      = Ok ([("success", JBool true);
             ("message", JStr ("User '" +:+ name e
                               +:+ "' registered successfully with ID "
                               +:+ human_id e +:+ "."));
             ("uuid", JStr (user_uuid e));
             ("human_id", JStr (human_id e))], 201).
Proof.
  intros (nm & c & Hname & Hnm & Hcount & Hfind & Hlen & Hc & Hrun)%api_register_enrolled.
  eexists _, c. rewrite Hrun.
  split; [reflexivity|]. split.
  { unfold after_add_user, logged. cbn [log world_after snd].
    rewrite !inserted_app, inserted_embed_events, app_nil_r.
    reflexivity. }
  split; [reflexivity|]. split; [reflexivity|]. split; [done|].
  split; [reflexivity|]. split.
  { unfold last_user_id, after_add_user. cbn [metadata world_after snd logged].
    apply lookup_insert_eq. }
  split; [done|]. reflexivity.
Qed.
(** *** Worlds that stay calm *)

Lemma world_after_bind {A B : Type} (m : M A) (f : A → M B) (w : World) :
  world_after ((m ≫= f) w) =
    match outcome (m w) with
    | Ok a => world_after (f a (world_after (m w)))
    | Raise _ => world_after (m w)
    end.
Proof. rewrite run_bind. by destruct (m w) as [[a|e] w']. Qed.

Lemma calm_refl w : calm w w.
Proof. by repeat split. Qed.

Lemma calm_trans w1 w2 w3 : calm w1 w2 → calm w2 w3 → calm w1 w3.
Proof.
  intros (Hm & Hf & Ha & Hi & Hc) (Hm' & Hf' & Ha' & Hi' & Hc').
  repeat split; try congruence. by transitivity (collection w2).
Qed.

Lemma calm_logged w evs :
  allocated evs = [] → inserted evs = [] → calm w (logged w evs).
Proof.
  intros Ha Hi. unfold calm, logged. cbn [metadata metadata_file log collection].
  rewrite allocated_app, inserted_app, Ha, Hi, !app_nil_r. done.
Qed.

Lemma calm_flash w message category :
  calm w (world_after (flash message category w)).
Proof. by repeat split. Qed.

Lemma calm_api_authenticate request w :
  calm w (world_after (api_authenticate app_get l2 request w)).
Proof.
  unfold api_authenticate.
  destruct (multidict_get "image" (files request)) as [image|]; [|apply calm_refl].
  destruct (file_truthy image); cbn [negb]; [|apply calm_refl].
  rewrite run_bind, get_face_embedding_run.
  destruct (normed_embedding <$> head (app_get (stream image))) as [q|];
    [|by apply calm_logged].
  rewrite run_bind, find_similar_user_run.
  destruct (match nearest l2 q (collection (logged w [EvEmbed (stream image)])) with
            | Some (e, d) => _ | None => _ end) as [[[u n] h] d].
  destruct (opt_str_truthy n); [destruct d|];
    cbn [world_after snd]; rewrite logged_logged; by apply calm_logged.
Qed.

Lemma mapM_keeps_world {A B : Type} (f : A → M B) (l : list A) (w : World) :
  (∀ a w0, world_after (f a w0) = w0) → world_after (mapM f l w) = w.
Proof.
  intros Hf. induction l as [|a l IH]; [done|].
  cbn [mapM]. rewrite world_after_bind.
  destruct (outcome (f a w)); rewrite Hf; [|done].
  rewrite world_after_bind. rewrite IH. by destruct (outcome (mapM f l w)).
Qed.

Lemma row_getitem_keeps_world r key w : world_after (row_getitem r key w) = w.
Proof. unfold row_getitem. by destruct (r !! key). Qed.

Lemma get_all_users_world w :
  world_after (get_all_users w) = logged w [EvQuery "pk >= 0"].
Proof.
  unfold get_all_users. rewrite world_after_bind.
  change (outcome (collection_query_all w))
    with (Ok (output_fields <$> filter (λ e, 0 ≤ pk e) (collection w))).
  change (world_after (collection_query_all w)) with (logged w [EvQuery "pk >= 0"]).
  apply mapM_keeps_world. intros r w0.
  rewrite world_after_bind, row_getitem_keeps_world.
  destruct (outcome (row_getitem r "user_uuid" w0)); [|done].
  rewrite world_after_bind, row_getitem_keeps_world.
  destruct (outcome (row_getitem r "name" w0)); [|done].
  rewrite world_after_bind, row_getitem_keeps_world.
  by destruct (outcome (row_getitem r "human_id" w0)).
Qed.

Lemma calm_index w : calm w (world_after (index w)).
Proof.
  unfold index. rewrite world_after_bind, get_all_users_world.
  destruct (outcome (get_all_users w)); by apply calm_logged.
Qed.

Lemma delete_user_run uuid w :
  delete_user uuid w =
    let expr := "user_uuid == '" +:+ uuid +:+ "'" in
    match parse_uuid_filter expr with
    | Some u =>
        (Raise (AttributeError "delete_coun"),
         mkWorld (filter (λ e, user_uuid e ≠ u) (collection w)) (next_pk w)
                 (metadata w) (metadata_file w) (uuid_draws w) (flashes w)
                 (log w ++ [EvDelete expr; EvFlush]))
    | None =>
        (Raise (MilvusException "cannot parse expression"),
         logged w [EvDelete expr])
    end.
Proof.
  unfold delete_user, collection_delete. cbv zeta.
  rewrite !run_bind. cbn [emit].
  destruct (parse_uuid_filter _) as [u|]; [|reflexivity].
  cbv [mbind M_bind mret M_ret get_world put_world collection_flush emit].
  rewrite MutationResult_getattr_delete_coun.
  cbn [collection next_pk metadata metadata_file uuid_draws flashes log].
  by rewrite <- app_assoc.
Qed.

Lemma calm_delete_user uuid w : calm w (world_after (delete_user uuid w)).
Proof.
  rewrite delete_user_run. cbv zeta.
  destruct (parse_uuid_filter _) as [u|]; [|by apply calm_logged].
  unfold calm. cbn [world_after snd metadata metadata_file log collection].
  rewrite !allocated_app, !inserted_app.
  change (allocated [_; _]) with (@nil Z). change (inserted [_; _]) with (@nil Entity).
  rewrite !app_nil_r.
  split_and!; try done. apply list_subseteq_filter.
Qed.

Lemma calm_delete_user_page uuid w : calm w (world_after (delete_user_page uuid w)).
Proof.
  unfold delete_user_page. rewrite world_after_bind.
  destruct (delete_user_never_returns uuid w) as [e ->]. apply calm_delete_user.
Qed.

(** Loading the metadata twice is loading it once. *)
Lemma init_milvus_run w : init_milvus w = load_metadata w.
Proof. reflexivity. Qed.

Lemma calm_restart w : consistent w → calm w (world_after (init_milvus w)).
Proof.
  intros (c & Hc & Hm & Hfile & _).
  rewrite init_milvus_run. unfold calm, load_metadata.
  cbn [world_after snd metadata metadata_file log collection].
  split_and!; try done.
  destruct Hfile as [->|[-> ->]]; done.
Qed.
(** *** At most one enrollment per request *)

Lemma calm_grows w w' : calm w w' → grows w w'.
Proof. by left. Qed.

Lemma grows_calm w w1 w2 : grows w w1 → calm w1 w2 → grows w w2.
Proof.
  intros [Hcalm|[(w0 & c & e & H0 & Hc & Hn & Hh & H1)|(w0 & c & u & H0 & Hc & H1)]] H2.
  - left. by apply calm_trans with w1.
  - right. left. exists w0, c, e. split_and!; try done. by apply calm_trans with w1.
  - right. right. exists w0, c, u. split_and!; try done. by apply calm_trans with w1.
Qed.

Lemma calm_uuid4_str w : calm w (world_after (uuid4_str uuid4_source w)).
Proof.
  unfold calm, uuid4_str. cbn [world_after snd metadata metadata_file log collection].
  rewrite allocated_app, inserted_app.
  change (allocated [_]) with (@nil Z). change (inserted [_]) with (@nil Entity).
  by rewrite !app_nil_r.
Qed.

Lemma calm_embed_events w fs : calm w (logged w (embed_events app_get fs)).
Proof. apply calm_logged; [apply allocated_embed_events | apply inserted_embed_events]. Qed.

Lemma grows_api_register request w :
  grows w (world_after (api_register app_get uuid4_source request w)).
Proof.
  destruct (decide (2 ≤ length (getlist "image" (files request)) ≤ 4)%nat)
    as [Hcount|Hcount]; last first.
  { destruct (api_register_bad_shape_run request w) as [b ->]; [by right; right|].
    left. apply calm_refl. }
  destruct (multidict_get "name" (form request)) as [nm|] eqn:Hname; last first.
  { destruct (api_register_bad_shape_run request w) as [b ->]; [by left|].
    left. apply calm_refl. }
  destruct (decide (nm = "")) as [->|Hnm].
  { destruct (api_register_bad_shape_run request w) as [b ->]; [by right; left|].
    left. apply calm_refl. }
  rewrite (api_register_valid request w nm Hname Hnm Hcount). cbv zeta.
  destruct (list_find _ _) as [[i f0]|]; [left; apply calm_embed_events|].
  destruct (decide (length _ < 2)%nat); [left; apply calm_embed_events|].
  destruct (last_user_id w) as [c|] eqn:Hc.
  - destruct (decide (within_schema _ nm _)).
    + right. left. eexists _, c, _.
      split_and!; [apply calm_embed_events | exact Hc | | | apply calm_refl];
        [exact Hnm | reflexivity].
    + right. right. eexists _, c, _.
      split_and!; [apply calm_embed_events | exact Hc | apply calm_refl].
  - left. eapply calm_trans; [apply calm_embed_events | apply calm_uuid4_str].
Qed.

Lemma calm_flash_either (b : bool) m1 c1 m2 c2 (x : WebResult) w :
  calm w (world_after (((if b then flash m1 c1 else flash m2 c2);; mret x) w)).
Proof. destruct b; apply calm_flash. Qed.

Lemma grows_register_page request w :
  grows w (world_after (register_page app_get uuid4_source request w)).
Proof.
  unfold register_page. destruct (decide (method request = "POST")); [|left; apply calm_refl].
  rewrite world_after_bind.
  pose proof (grows_api_register request w) as Hgrow.
  destruct (outcome (api_register app_get uuid4_source request w)) as [[response status]|];
    [|done].
  eapply grows_calm; [exact Hgrow|].
  destruct (decide (status = 201)); apply calm_flash.
Qed.

Lemma calm_authenticate_page request w :
  calm w (world_after (authenticate_page app_get l2 request w)).
Proof.
  unfold authenticate_page. destruct (decide (method request = "POST")); [|apply calm_refl].
  rewrite world_after_bind.
  pose proof (calm_api_authenticate request w) as Hcalm.
  destruct (outcome (api_authenticate app_get l2 request w)) as [[response status]|];
    [|done].
  eapply calm_trans; [exact Hcalm|].
  destruct (from_option json_truthy false _); apply calm_flash.
Qed.

(** *** The invariant *)

Lemma consistent_fresh : consistent fresh_world.
Proof.
  exists 0. split_and!; try done. by right.
Qed.

Lemma consistent_calm w w' : consistent w → calm w w' → consistent w'.
Proof.
  intros (c & Hc & Hm & Hfile & Ha & Hl & Hn & Hsub) (Hm' & Hf' & Ha' & Hi' & Hc').
  exists c. rewrite Hm', Hf', Ha', Hi'. split_and!; try done.
  by transitivity (collection w).
Qed.

Lemma consistent_counter w c :
  consistent w → last_user_id w = Some c →
  0 ≤ c ∧ metadata w = {[ "last_user_id" := c ]}.
Proof.
  intros (c0 & Hc0 & Hm & _) Hc. unfold last_user_id in Hc.
  rewrite Hm, lookup_singleton_eq in Hc. injection Hc as <-. done.
Qed.

Lemma consistent_has_counter w :
  consistent w → ∃ c, last_user_id w = Some c ∧ 0 ≤ c.
Proof.
  intros (c & Hc & Hm & _). exists c. split; [|done].
  unfold last_user_id. by rewrite Hm, lookup_singleton_eq.
Qed.

Lemma seqZ_snoc c : 0 ≤ c → seqZ 1 (c + 1) = seqZ 1 c ++ [c + 1].
Proof.
  intros Hc. rewrite seqZ_app by lia.
  rewrite (seqZ_cons (1 + c)) by lia.
  rewrite (seqZ_nil (Z.succ (1 + c))) by lia.
  do 2 f_equal. lia.
Qed.

Lemma consistent_after_add_user w c e :
  consistent w → last_user_id w = Some c →
  name e ≠ "" → human_id e = label_of (c + 1) →
  consistent (after_add_user w c e).
Proof.
  intros Hw Hc Hname Hlabel.
  destruct (consistent_counter w c Hw Hc) as [Hpos Hm].
  destruct Hw as (c0 & _ & Hm0 & Hfile & Ha & Hl & Hn & Hsub).
  assert (c0 = c) as ->.
  { rewrite Hm in Hm0. apply (f_equal (λ m, m !! "last_user_id")) in Hm0.
    rewrite !lookup_singleton_eq in Hm0. congruence. }
  exists (c + 1). unfold after_add_user. cbv zeta.
  cbn [metadata metadata_file log collection].
  rewrite Hm, insert_singleton_eq, allocated_app, inserted_app.
  change (inserted [_; _; _; _]) with [e].
  assert (allocated [EvUuid4 (user_uuid e);
                     EvMetadataSaved {["last_user_id" := c + 1]};
                     EvInsert e; EvFlush] = [c + 1]) as ->.
  { unfold allocated. cbn [omap list_omap]. by rewrite lookup_singleton_eq. }
  rewrite seqZ_snoc by done. rewrite !fmap_app, Ha. cbn [fmap list_fmap].
  rewrite Hlabel.
  split_and!; try done.
  - lia.
  - by left.
  - by apply sublist_app.
  - apply Forall_app. split; [done|]. by constructor.
  - intros x [Hx| ->%list_elem_of_singleton]%elem_of_app.
    + apply elem_of_app. left. by apply Hsub.
    + apply elem_of_app. right. by apply list_elem_of_singleton.
Qed.

Lemma consistent_after_refused_insert w c u :
  consistent w → last_user_id w = Some c →
  consistent (after_refused_insert w c u).
Proof.
  intros Hw Hc.
  destruct (consistent_counter w c Hw Hc) as [Hpos Hm].
  destruct Hw as (c0 & _ & Hm0 & Hfile & Ha & Hl & Hn & Hsub).
  assert (c0 = c) as ->.
  { rewrite Hm in Hm0. apply (f_equal (λ m, m !! "last_user_id")) in Hm0.
    rewrite !lookup_singleton_eq in Hm0. congruence. }
  exists (c + 1). unfold after_refused_insert. cbv zeta.
  cbn [metadata metadata_file log collection].
  rewrite Hm, insert_singleton_eq, allocated_app, inserted_app.
  change (inserted [_; _]) with (@nil Entity). rewrite app_nil_r.
  assert (allocated [EvUuid4 u; EvMetadataSaved {["last_user_id" := c + 1]}]
          = [c + 1]) as ->.
  { unfold allocated. cbn [omap list_omap]. by rewrite lookup_singleton_eq. }
  rewrite seqZ_snoc by done. rewrite !fmap_app, Ha.
  split_and!; try done.
  - lia.
  - by left.
  - by apply sublist_inserts_r.
Qed.

Lemma consistent_grows w w' : consistent w → grows w w' → consistent w'.
Proof.
  intros Hw [Hcalm|[(w1 & c & e & H1 & Hc & Hn & Hh & H2)|(w1 & c & u & H1 & Hc & H2)]].
  - by apply consistent_calm with w.
  - apply consistent_calm with (after_add_user w1 c e); [|done].
    apply consistent_after_add_user; try done.
    by apply consistent_calm with w.
  - apply consistent_calm with (after_refused_insert w1 c u); [|done].
    apply consistent_after_refused_insert; [|done].
    by apply consistent_calm with w.
Qed.

Lemma step_grows w w' :
  step app_get uuid4_source l2 w w' → consistent w → grows w w'.
Proof.
  intros Hstep Hw. destruct Hstep.
  - left. by apply calm_restart.
  - apply grows_api_register.
  - left. apply calm_api_authenticate.
  - left. apply calm_index.
  - apply grows_register_page.
  - left. apply calm_authenticate_page.
  - left. apply calm_delete_user_page.
Qed.

(** Every world the program gets into is consistent. *)
Lemma reachable_consistent w :
  reachable app_get uuid4_source l2 w → consistent w.
Proof.
  unfold reachable. revert w. apply rtc_ind_r.
  - apply consistent_fresh.
  - intros w1 w2 _ Hstep IH.
    eapply consistent_grows; [exact IH|]. by apply step_grows.
Qed.
(** *** The sequence of labels *)

Lemma label_of_inj n m : label_of n = label_of m → n = m.
Proof.
  unfold label_of. cbn [String.append]. intros [= H]. by apply (inj pretty).
Qed.

Lemma calm_counter w w' : calm w w' → last_user_id w' = last_user_id w.
Proof. intros (Hm & _). unfold last_user_id. by rewrite Hm. Qed.

Lemma grows_counter w w' c :
  grows w w' → last_user_id w = Some c →
  ∃ c', last_user_id w' = Some c' ∧ c ≤ c'.
Proof.
  intros [Hcalm|[(w1 & c1 & e & H1 & Hc1 & _ & _ & H2)|(w1 & c1 & u & H1 & Hc1 & H2)]] Hc.
  - exists c. rewrite (calm_counter _ _ Hcalm). split; [done|lia].
  - rewrite (calm_counter _ _ H1), Hc in Hc1. injection Hc1 as <-.
    exists (c + 1). rewrite (calm_counter _ _ H2). split; [|lia].
    unfold last_user_id, after_add_user. cbn [metadata]. apply lookup_insert_eq.
  - rewrite (calm_counter _ _ H1), Hc in Hc1. injection Hc1 as <-.
    exists (c + 1). rewrite (calm_counter _ _ H2). split; [|lia].
    unfold last_user_id, after_refused_insert. cbn [metadata]. apply lookup_insert_eq.
Qed.

(** C4.  In every world the program gets into, the counter has a value
    [c], and a call of [get_next_human_id] returns ["fr"] followed by
    [c + 1], leaves the counter at [c + 1], and leaves the metadata file
    holding the dict with the new value by the time it returns.  The new
    number is greater than every number allocated before, so the label
    differs from theirs, and every entity ever inserted, deleted or not,
    bears a label with a smaller number.  A successful enrollment answers
    with that new label.  No request and no restart makes the counter
    smaller. *)
Theorem labels_strictly_increase (w : World) :
  reachable app_get uuid4_source l2 w →
  ∃ c : Z,
    last_user_id w = Some c
    ∧ outcome (get_next_human_id w) = Ok ("fr" +:+ pretty (c + 1))
    ∧ last_user_id (world_after (get_next_human_id w)) = Some (c + 1)
    ∧ metadata_file (world_after (get_next_human_id w))
      = Some (metadata (world_after (get_next_human_id w)))
    ∧ (∀ n, n ∈ allocated (log w) → n < c + 1 ∧ label_of n ≠ label_of (c + 1))
    ∧ (∀ e, e ∈ inserted (log w) → ∃ n, human_id e = label_of n ∧ n < c + 1)
    ∧ (∀ request,
         enrolled (api_register app_get uuid4_source request w) →
         ∃ nm uuid,
           outcome (api_register app_get uuid4_source request w)
           = Ok (registered nm uuid (label_of (c + 1))))
    ∧ (∀ w', step app_get uuid4_source l2 w w' →
         ∃ c', last_user_id w' = Some c' ∧ c ≤ c').
Proof.
  intros Hw%reachable_consistent.
  destruct (consistent_has_counter w Hw) as (c & Hc & Hpos).
  exists c. split; [exact Hc|].
  rewrite (get_next_human_id_run w c Hc). cbv zeta.
  split; [reflexivity|]. split.
  { unfold last_user_id. cbn [world_after snd metadata]. apply lookup_insert_eq. }
  split; [reflexivity|].
  pose proof Hw as Hcons.
  destruct Hw as (c0 & _ & Hm & _ & Ha & Hl & _ & _).
  assert (c0 = c) as ->.
  { unfold last_user_id in Hc. rewrite Hm, lookup_singleton_eq in Hc. congruence. }
  split.
  { intros n Hn. rewrite Ha in Hn. apply elem_of_seqZ in Hn.
    split; [lia|]. intros Heq%label_of_inj. lia. }
  split.
  { intros e He. apply (list_elem_of_fmap_2 human_id) in He.
    apply (elem_of_sublist _ _ _ He) in Hl as He'.
    apply list_elem_of_fmap in He' as (n & Hn & Hin).
    apply elem_of_seqZ in Hin. exists n. split; [done|lia]. }
  split.
  { intros request Hen.
    apply api_register_enrolled in Hen as (nm & c' & _ & _ & _ & _ & _ & Hc' & ->).
    rewrite Hc in Hc'. injection Hc' as <-. by eexists _, _. }
  intros w' Hstep. eapply grows_counter; [|exact Hc].
  by apply step_grows.
Qed.
(** *** Authentication with a match *)

Lemma consistent_names w e : consistent w → e ∈ collection w → name e ≠ "".
Proof.
  intros (c & _ & _ & _ & _ & _ & Hn & Hsub) He.
  rewrite Forall_forall in Hn. apply Hn, Hsub, He.
Qed.

(** C8.  In every world the program gets into, when the uploaded image
    carries a file name, the adapter finds a face in it, and
    [find_similar_user] answers something else than four [None]s for its
    embedding, that answer is made of the external id, the name and the
    label of one entity of the collection, with the distance the index
    reports for it, and [api_authenticate] answers with status 200,
    [authenticated = true], and exactly these four values. *)
Theorem api_authenticate_welcomes_match
    (request : Request) (image : FileStorage) (q : ndarray) (m : Match) (w : World) :
  reachable app_get uuid4_source l2 w →
  multidict_get "image" (files request) = Some image →
  filename image ≠ "" →
  embedding_of app_get image = Some q →
  outcome (find_similar_user l2 q DISTANCE_THRESHOLD w) = Ok m →
  m ≠ no_match →
  ∃ (e : Entity) (d : Qc),
    e ∈ collection w
    ∧ d = l2 q (embedding e)
    ∧ m = (Some (user_uuid e), Some (name e), Some (human_id e), Some d)
    ∧ outcome (api_authenticate app_get l2 request w)
      = Ok ([("authenticated", JBool true);
             ("message", JStr ("Authentication successful. Welcome, " +:+ name e
                               +:+ ". Your ID is " +:+ human_id e +:+ "."));
             ("uuid", JStr (user_uuid e));
             ("name", JStr (name e));
             ("human_id", JStr (human_id e));
             ("distance", JNum d)], 200).
Proof.
  intros Hw%reachable_consistent Himg Hfile Hemb Hfind Hm.
  rewrite find_similar_user_run in Hfind. cbn [outcome fst] in Hfind.
  destruct (nearest l2 q (collection w)) as [[e d]|] eqn:Hnear; [|congruence].
  destruct (decide (d < DISTANCE_THRESHOLD)%Qc) as [Hlt|]; [|congruence].
  injection Hfind as <-.
  destruct (nearest_closest q (collection w) e d Hnear) as (Hin & Hd & _).
  exists e, d. split_and!; try done.
  unfold api_authenticate. rewrite Himg.
  unfold file_truthy, str_truthy. rewrite bool_decide_eq_true_2 by done.
  cbn [negb]. rewrite run_bind, get_face_embedding_run.
  unfold embedding_of in Hemb. rewrite Hemb.
  rewrite run_bind, find_similar_user_run.
  change (collection (logged w [EvEmbed (stream image)])) with (collection w).
  rewrite Hnear. rewrite decide_True by done.
  cbn [opt_str_truthy]. unfold str_truthy.
  rewrite bool_decide_eq_true_2 by (by apply (consistent_names w)).
  reflexivity.
Qed.

(** *** Files without a name *)

Lemma attempted_named fs f : f ∈ attempted app_get fs → filename f ≠ "".
Proof.
  unfold attempted, processed.
  destruct (list_find _ fs) as [[i x]|]; by intros [? _]%list_elem_of_filter.
Qed.

Lemma attempted_all fs :
  list_find (faceless app_get) fs = None → attempted app_get fs = processed fs.
Proof. unfold attempted. by intros ->. Qed.

(** C10, amended.  In every world the program gets into, for a request
    with a name and between 2 and 4 uploaded files, files with an empty
    name included in that count: the adapter is called on files that have
    a name only, namely on the attempted ones, in order, and these calls
    come first among the actions of the request.  If the adapter finds no
    face in some file that has a name, the answer is the no-face error for
    the first such file.  Otherwise, when fewer than two files have a name
    the answer is "Fewer than 2 valid images were processed." with status
    400, and when at least two do the enrollment goes on to the insertion
    and succeeds provided the store accepts the record, that is, provided
    the uuid, the name and the label are within the lengths of the
    schema. *)
Theorem api_register_skips_unnamed_files (request : Request) (nm : string) (w : World) :
  reachable app_get uuid4_source l2 w →
  multidict_get "name" (form request) = Some nm → nm ≠ "" →
  (2 ≤ length (getlist "image" (files request)) ≤ 4)%nat →
  (∀ f, f ∈ attempted app_get (getlist "image" (files request)) → filename f ≠ "")
  ∧ (∃ rest,
       log (world_after (api_register app_get uuid4_source request w))
       = log w
         ++ ((λ f, EvEmbed (stream f))
               <$> attempted app_get (getlist "image" (files request)))
         ++ rest
       ∧ Forall (λ ev, ¬ is_embed ev) rest)
  ∧ match list_find (faceless app_get) (getlist "image" (files request)) with
    | Some (_, f0) =>
        outcome (api_register app_get uuid4_source request w)
        = Ok (no_face_error (filename f0))
    | None =>
        attempted app_get (getlist "image" (files request))
        = processed (getlist "image" (files request))
        ∧ if decide (2 ≤ length (processed (getlist "image" (files request))))%nat
          then ∃ c, last_user_id w = Some c
                    ∧ (within_schema (uuid4_source (uuid_draws w)) nm
                                     (label_of (c + 1)) →
                       enrolled (api_register app_get uuid4_source request w))
          else outcome (api_register app_get uuid4_source request w)
               = Ok ([("error", JStr "Fewer than 2 valid images were processed.")],
                     400)
    end.
Proof.
  intros Hw%reachable_consistent Hname Hnm Hcount.
  destruct (consistent_has_counter w Hw) as (c & Hc & _).
  split; [apply attempted_named|].
  rewrite (api_register_valid request w nm Hname Hnm Hcount). cbv zeta.
  rewrite Hc.
  destruct (list_find _ _) as [[i f0]|] eqn:Hfind.
  { split; [|reflexivity]. exists []. by rewrite app_nil_r. }
  pose proof (Forall2_length _ _ _ (no_faceless_embeddings _ Hfind)) as Hlen.
  rewrite <- Hlen.
  destruct (decide (length (processed _) < 2)%nat) as [Hfew|Hfew].
  - split; [exists []; by rewrite app_nil_r|].
    split; [by apply attempted_all|].
    rewrite decide_False by lia. reflexivity.
  - split.
    + destruct (decide (within_schema _ nm _)).
      * eexists. split.
        -- unfold after_add_user, logged. cbn [world_after snd log].
           rewrite <- app_assoc. reflexivity.
        -- repeat constructor; intros [b Hb]; discriminate.
      * eexists. split.
        -- unfold after_refused_insert, logged. cbn [world_after snd log].
           rewrite <- app_assoc. reflexivity.
        -- repeat constructor; intros [b Hb]; discriminate.
    + split; [by apply attempted_all|].
      rewrite decide_True by lia. exists c. split; [done|].
      intros Hfits. rewrite decide_True by done. by eexists.
Qed.

(** *** Authentication, case by case *)

Lemma api_authenticate_run request image w :
  multidict_get "image" (files request) = Some image →
  filename image ≠ "" →
  api_authenticate app_get l2 request w =
    match embedding_of app_get image with
    | None => (Ok no_face_answer, logged w [EvEmbed (stream image)])
    | Some q =>
        (Ok (match nearest l2 q (collection w) with
             | Some (e, d) =>
                 if decide (d < DISTANCE_THRESHOLD)%Qc
                 then (if str_truthy (name e) then welcome e d else not_recognized)
                 else not_recognized
             | None => not_recognized
             end),
         logged w [EvEmbed (stream image); EvSearch q])
    end.
Proof.
  intros Himg Hfile. unfold api_authenticate. rewrite Himg.
  unfold file_truthy, str_truthy at 1. rewrite bool_decide_eq_true_2 by done.
  cbn [negb]. rewrite run_bind, get_face_embedding_run.
  fold (embedding_of app_get image).
  destruct (embedding_of app_get image) as [q|]; [|reflexivity].
  rewrite run_bind, find_similar_user_run, logged_logged.
  change (collection (logged w [EvEmbed (stream image)])) with (collection w).
  destruct (nearest l2 q (collection w)) as [[e d]|]; [|reflexivity].
  destruct (decide (d < DISTANCE_THRESHOLD)%Qc); [|reflexivity].
  cbn [opt_str_truthy]. by destruct (str_truthy (name e)).
Qed.

Lemma api_authenticate_missing_run request w :
  multidict_get "image" (files request) = None
  ∨ (∃ image, multidict_get "image" (files request) = Some image ∧ filename image = "") →
  api_authenticate app_get l2 request w = (Ok missing_image, w).
Proof.
  unfold api_authenticate. intros [->|(image & -> & Hfile)]; [done|].
  unfold file_truthy, str_truthy. by rewrite bool_decide_eq_false_2 by (by intros []).
Qed.

(** X1.  A request without an image, or whose image has an empty file
    name, is answered 400 "Missing image" and nothing at all happens: the
    adapter is not called and the store is not searched. *)
Theorem api_authenticate_missing_image (request : Request) (w : World) :
  multidict_get "image" (files request) = None
  ∨ (∃ image, multidict_get "image" (files request) = Some image ∧ filename image = "") →
  outcome (api_authenticate app_get l2 request w)
    = Ok ([("error", JStr "Missing image")], 400)
  ∧ world_after (api_authenticate app_get l2 request w) = w.
Proof. intros H. by rewrite (api_authenticate_missing_run request w H). Qed.

(** X2.  Authentication only reads.  Whatever the request and the world,
    [api_authenticate] leaves the collection, the counter, its file, the
    uuid draws and the flashes as they were: the world changes by the log
    alone, to which at most one call of the adapter followed by at most
    one search is added.  And when it answers, the status is 200 or
    400. *)
Theorem api_authenticate_only_reads (request : Request) (w : World) :
  (∃ evs,
     world_after (api_authenticate app_get l2 request w) = logged w evs
     ∧ (evs = [] ∨ (∃ b, evs = [EvEmbed b]) ∨ (∃ b q, evs = [EvEmbed b; EvSearch q])))
  ∧ ∀ body status,
      outcome (api_authenticate app_get l2 request w) = Ok (body, status) →
      status = 200 ∨ status = 400.
Proof.
  destruct (multidict_get "image" (files request)) as [image|] eqn:Himg; last first.
  { rewrite (api_authenticate_missing_run request w) by (by left).
    split; [exists []; split; [by rewrite logged_nil | by left]|].
    intros body status [= <- <-]. by right. }
  destruct (decide (filename image = "")) as [Hfile|Hfile].
  { rewrite (api_authenticate_missing_run request w) by (right; eauto).
    split; [exists []; split; [by rewrite logged_nil | by left]|].
    intros body status [= <- <-]. by right. }
  rewrite (api_authenticate_run request image w Himg Hfile).
  destruct (embedding_of app_get image) as [q|].
  - split; [eexists; split; [reflexivity | right; right; eauto]|].
    intros body status.
    destruct (nearest l2 q (collection w)) as [[e d]|];
      [destruct (decide (d < DISTANCE_THRESHOLD)%Qc); [destruct (str_truthy (name e))|]|];
      intros [= <- <-]; by left.
  - split; [eexists; split; [reflexivity | right; left; eauto]|].
    intros body status [= <- <-]. by left.
Qed.

(** X3.  When the adapter finds a face but the store is empty, or the
    closest stored entity is at a distance that is not strictly below
    [DISTANCE_THRESHOLD] (a distance of exactly 1.1 included), the answer
    is [authenticated = false], "User not recognized", with status 200. *)
Theorem api_authenticate_not_recognized
    (request : Request) (image : FileStorage) (q : ndarray) (w : World) :
  multidict_get "image" (files request) = Some image →
  filename image ≠ "" →
  embedding_of app_get image = Some q →
  (collection w = []
   ∨ ∃ e d, nearest l2 q (collection w) = Some (e, d) ∧ (DISTANCE_THRESHOLD ≤ d)%Qc) →
  outcome (api_authenticate app_get l2 request w)
    = Ok ([("authenticated", JBool false); ("message", JStr "User not recognized")], 200).
Proof.
  intros Himg Hfile Hemb Hfar.
  rewrite (api_authenticate_run request image w Himg Hfile), Hemb.
  destruct Hfar as [->|(e & d & -> & Hd)]; [reflexivity|].
  rewrite decide_False by (by apply Qcle_not_lt). reflexivity.
Qed.

(** X4.  In every world the program gets into, if some stored entity lies
    strictly within [DISTANCE_THRESHOLD] of the embedding of the uploaded
    image, authentication succeeds: the answer welcomes a stored entity
    that is at least as close. *)
Theorem api_authenticate_finds_close_entity
    (request : Request) (image : FileStorage) (q : ndarray) (e : Entity) (w : World) :
  reachable app_get uuid4_source l2 w →
  multidict_get "image" (files request) = Some image →
  filename image ≠ "" →
  embedding_of app_get image = Some q →
  e ∈ collection w →
  (l2 q (embedding e) < DISTANCE_THRESHOLD)%Qc →
  ∃ (e' : Entity) (d : Qc),
    e' ∈ collection w
    ∧ d = l2 q (embedding e')
    ∧ (d ≤ l2 q (embedding e))%Qc
    ∧ outcome (api_authenticate app_get l2 request w) = Ok (welcome e' d).
Proof.
  intros Hw%reachable_consistent Himg Hfile Hemb Hin Hclose.
  rewrite (api_authenticate_run request image w Himg Hfile), Hemb.
  destruct (nearest l2 q (collection w)) as [[e' d]|] eqn:Hnear; last first.
  { apply nearest_None in Hnear. rewrite Hnear in Hin. by apply elem_of_nil in Hin. }
  destruct (nearest_closest q (collection w) e' d Hnear) as (Hin' & Hd & Hmin).
  exists e', d. split; [exact Hin'|]. split; [exact Hd|]. split; [by apply Hmin|].
  rewrite decide_True
    by (apply Qcle_lt_trans with (l2 q (embedding e)); [by apply Hmin | done]).
  unfold str_truthy.
  by rewrite bool_decide_eq_true_2 by (by apply (consistent_names w)).
Qed.

(** *** The answers of an enrollment *)

Lemma api_register_bad_shape_error request w :
  multidict_get "name" (form request) = None
  ∨ multidict_get "name" (form request) = Some ""
  ∨ ¬ (2 ≤ length (getlist "image" (files request)) ≤ 4)%nat →
  ∃ msg, api_register app_get uuid4_source request w
         = (Ok ([("error", JStr msg)], 400), w).
Proof.
  intros H. unfold api_register.
  destruct (opt_str_truthy (multidict_get "name" (form request))) eqn:Hname; simpl.
  - destruct H as [H|[H|H]]; [by rewrite H in Hname .. |].
    rewrite bool_decide_eq_false_2 by done. simpl. eauto.
  - eauto.
Qed.

(** Whatever the world, [api_register] ends in one of three ways, and it
    never flashes. *)
Lemma api_register_answer request w :
  ∃ w1, flashes w1 = flashes w ∧
    ((∃ nm uuid hid,
        api_register app_get uuid4_source request w = (Ok (registered nm uuid hid), w1))
     ∨ (∃ msg,
        api_register app_get uuid4_source request w
        = (Ok ([("error", JStr msg)], 400), w1))
     ∨ (∃ e, api_register app_get uuid4_source request w = (Raise e, w1))).
Proof.
  destruct (decide (2 ≤ length (getlist "image" (files request)) ≤ 4)%nat)
    as [Hcount|Hcount]; last first.
  { destruct (api_register_bad_shape_error request w) as [msg ->]; [by right; right|].
    exists w. split; [done|]. right. left. by exists msg. }
  destruct (multidict_get "name" (form request)) as [nm|] eqn:Hname; last first.
  { destruct (api_register_bad_shape_error request w) as [msg ->]; [by left|].
    exists w. split; [done|]. right. left. by exists msg. }
  destruct (decide (nm = "")) as [->|Hnm].
  { destruct (api_register_bad_shape_error request w) as [msg ->]; [by right; left|].
    exists w. split; [done|]. right. left. by exists msg. }
  rewrite (api_register_valid request w nm Hname Hnm Hcount). cbv zeta.
  destruct (list_find _ _) as [[i f0]|].
  { eexists. split; [|right; left; eexists; reflexivity]. reflexivity. }
  destruct (decide (length _ < 2)%nat).
  { eexists. split; [|right; left; eexists; reflexivity]. reflexivity. }
  destruct (last_user_id w) as [c|].
  - destruct (decide (within_schema _ nm _)).
    + eexists. split; [|left; eexists _, _, _; reflexivity]. reflexivity.
    + eexists. split; [|right; right; eexists; reflexivity]. reflexivity.
  - eexists. split; [|right; right; eexists; reflexivity]. reflexivity.
Qed.

(** X5.  Whatever the request and the world, when [api_register] answers,
    the answer is either the success body, with its message, uuid and
    label, under status 201, or a single error message under status 400;
    there is no third kind of answer. *)
Theorem api_register_answers_201_or_400
    (request : Request) (body : Response) (status : Z) (w : World) :
  outcome (api_register app_get uuid4_source request w) = Ok (body, status) →
  (status = 201
   ∧ ∃ nm uuid hid,
       body = [("success", JBool true);
               ("message", JStr ("User '" +:+ nm +:+ "' registered successfully with ID "
                                 +:+ hid +:+ "."));
               ("uuid", JStr uuid);
               ("human_id", JStr hid)])
  ∨ (status = 400 ∧ ∃ msg, body = [("error", JStr msg)]).
Proof.
  destruct (api_register_answer request w)
    as (w1 & _ & [(nm & uuid & hid & ->)|[(msg & ->)|(e & ->)]]).
  - intros [= <- <-]. left. split; [done|]. by exists nm, uuid, hid.
  - intros [= <- <-]. right. split; [done|]. by exists msg.
  - discriminate.
Qed.

(** *** The pages *)

(** X6.  A POST to the registration page, whatever the world.  When the
    API answers, the page redirects to the index and flashes exactly one
    message: the success message of the API under "success" after a 201,
    the API's error message under "danger" otherwise, so that the
    fallback texts of the page are never shown.  When the API is cut short
    by an exception, so is the page, and nothing is flashed. *)
Theorem register_page_flashes_api_message (request : Request) (w : World) :
  method request = "POST" →
  match outcome (api_register app_get uuid4_source request w) with
  | Ok answer =>
      outcome (register_page app_get uuid4_source request w) = Ok (Redirect "index")
      ∧ ((∃ nm uuid hid,
            answer = registered nm uuid hid
            ∧ flashes (world_after (register_page app_get uuid4_source request w))
              = flashes w
                ++ [("User '" +:+ nm +:+ "' registered successfully with ID "
                     +:+ hid +:+ ".", "success")])
         ∨ (∃ msg,
              answer = ([("error", JStr msg)], 400)
              ∧ flashes (world_after (register_page app_get uuid4_source request w))
                = flashes w ++ [(msg, "danger")]))
  | Raise e =>
      outcome (register_page app_get uuid4_source request w) = Raise e
      ∧ flashes (world_after (register_page app_get uuid4_source request w))
        = flashes w
  end.
Proof.
  intros Hpost. unfold register_page.
  rewrite decide_True by done. rewrite run_bind.
  destruct (api_register_answer request w)
    as (w1 & Hfl & [(nm & uuid & hid & ->)|[(msg & ->)|(e & ->)]]).
  - split; [reflexivity|]. left. exists nm, uuid, hid. split; [reflexivity|].
    rewrite <- Hfl. reflexivity.
  - split; [reflexivity|]. right. exists msg. split; [reflexivity|].
    rewrite <- Hfl. reflexivity.
  - split; [reflexivity|]. exact Hfl.
Qed.


(** *** The counter across enrollments and restarts *)

Lemma last_user_id_after_add_user w c e :
  last_user_id (after_add_user w c e) = Some (c + 1).
Proof. unfold last_user_id, after_add_user. cbn [metadata]. apply lookup_insert_eq. Qed.

(** X8.  Two successful enrollments in a row, from any world, are
    labelled with two consecutive counter values, carry the two uuids
    drawn one after the other, and leave the collection extended by their
    two entities, in this order. *)
Theorem consecutive_enrollments (request1 request2 : Request) (w : World) :
  enrolled (api_register app_get uuid4_source request1 w) →
  enrolled (api_register app_get uuid4_source request2
              (world_after (api_register app_get uuid4_source request1 w))) →
  ∃ (c : Z) (e1 e2 : Entity),
    last_user_id w = Some c
    ∧ outcome (api_register app_get uuid4_source request1 w)
      = Ok (registered (name e1) (uuid4_source (uuid_draws w)) (label_of (c + 1)))
    ∧ outcome (api_register app_get uuid4_source request2
                 (world_after (api_register app_get uuid4_source request1 w)))
      = Ok (registered (name e2) (uuid4_source (S (uuid_draws w))) (label_of (c + 2)))
    ∧ collection (world_after
                    (api_register app_get uuid4_source request2
                       (world_after (api_register app_get uuid4_source request1 w))))
      = collection w ++ [e1; e2]
    ∧ human_id e1 = label_of (c + 1) ∧ human_id e2 = label_of (c + 2).
Proof.
  intros (nm1 & c & _ & _ & _ & _ & _ & Hc & Hrun1)%api_register_enrolled.
  rewrite Hrun1. cbn [world_after snd].
  intros (nm2 & c2 & _ & _ & _ & _ & _ & Hc2 & Hrun2)%api_register_enrolled.
  rewrite last_user_id_after_add_user in Hc2. injection Hc2 as <-.
  rewrite Hrun2. cbn [world_after snd outcome fst].
  replace (c + 1 + 1) with (c + 2) by lia.
  match goal with
  | |- context [after_add_user (logged (after_add_user _ _ ?a) _) _ ?b] =>
      exists c, a, b
  end.
  split; [exact Hc|]. split; [reflexivity|]. split; [reflexivity|]. split.
  { unfold after_add_user, logged. cbn [collection]. by rewrite <- app_assoc. }
  split; reflexivity.
Qed.


(** X10.  The counter lives in the file alone.  When the metadata file
    does not exist, [init_milvus] sets the counter to 0 whatever it was
    and whatever the collection holds, so the next successful enrollment
    is labelled "fr1". *)
Theorem restart_without_file_resets_counter (request : Request) (w : World) :
  metadata_file w = None →
  last_user_id (world_after (init_milvus w)) = Some 0
  ∧ collection (world_after (init_milvus w)) = collection w
  ∧ (enrolled (api_register app_get uuid4_source request (world_after (init_milvus w))) →
     ∃ nm uuid,
       outcome (api_register app_get uuid4_source request (world_after (init_milvus w)))
       = Ok (registered nm uuid "fr1")).
Proof.
  intros Hfile. rewrite init_milvus_run.
  assert (last_user_id (world_after (load_metadata w)) = Some 0) as Hzero.
  { unfold last_user_id, load_metadata. cbn [world_after snd metadata].
    rewrite Hfile. apply lookup_singleton_eq. }
  split; [exact Hzero|]. split; [reflexivity|].
  intros (nm & c & _ & _ & _ & _ & _ & Hc & ->)%api_register_enrolled.
  rewrite Hzero in Hc. injection Hc as <-. by eexists _, _.
Qed.

(** X11.  A metadata file without the key "last_user_id" breaks
    enrollment.  After [init_milvus] has loaded such a file, a request that
    passes every check (a name, 2 to 4 files, a face in each named file,
    at least two of them) is cut short by [KeyError]: a uuid has been
    drawn, but nothing is inserted and the file is not rewritten. *)
Theorem enrollment_without_counter_key
    (request : Request) (nm : string) (content : gmap string Z) (w : World) :
  metadata_file w = Some content →
  content !! "last_user_id" = None →
  multidict_get "name" (form request) = Some nm → nm ≠ "" →
  (2 ≤ length (getlist "image" (files request)) ≤ 4)%nat →
  list_find (faceless app_get) (getlist "image" (files request)) = None →
  (2 ≤ length (processed (getlist "image" (files request))))%nat →
  outcome (api_register app_get uuid4_source request (world_after (init_milvus w)))
    = Raise (KeyError "last_user_id")
  ∧ collection (world_after (api_register app_get uuid4_source request
                               (world_after (init_milvus w))))
    = collection w
  ∧ metadata_file (world_after (api_register app_get uuid4_source request
                                  (world_after (init_milvus w))))
    = Some content
  ∧ uuid_draws (world_after (api_register app_get uuid4_source request
                               (world_after (init_milvus w))))
    = S (uuid_draws w).
Proof.
  intros Hfile Hkey Hname Hnm Hcount Hfind Hlen. rewrite init_milvus_run.
  rewrite (api_register_valid request _ nm Hname Hnm Hcount). cbv zeta.
  rewrite Hfind.
  pose proof (Forall2_length _ _ _ (no_faceless_embeddings _ Hfind)) as Hlen'.
  rewrite decide_False by lia.
  assert (last_user_id (world_after (load_metadata w)) = None) as ->.
  { unfold last_user_id, load_metadata. cbn [world_after snd metadata].
    by rewrite Hfile. }
  split; [reflexivity|]. split; [reflexivity|]. split; [exact Hfile|]. reflexivity.
Qed.

(** X12.  Labels are never ambiguous: two different counter values are
    rendered as two different labels. *)
Theorem distinct_counters_distinct_labels (n m : Z) :
  n ≠ m → label_of n ≠ label_of m.
Proof. intros Hne Heq. by apply Hne, label_of_inj. Qed.

(** *** The order of the photos *)

(** X13.  The order of the photos does not matter to the outcome.  If an
    enrollment succeeds, then from the same world a request with the same
    form and the same uploaded files in another order succeeds too, with
    the same answer, and the entity it stores has the same external id,
    name and label. *)
Theorem enrollment_ignores_photo_order (request1 request2 : Request) (w : World) :
  form request2 = form request1 →
  getlist "image" (files request2) ≡ₚ getlist "image" (files request1) →
  enrolled (api_register app_get uuid4_source request1 w) →
  outcome (api_register app_get uuid4_source request2 w)
    = outcome (api_register app_get uuid4_source request1 w)
  ∧ ∃ e1 e2 : Entity,
      collection (world_after (api_register app_get uuid4_source request1 w))
        = collection w ++ [e1]
      ∧ collection (world_after (api_register app_get uuid4_source request2 w))
        = collection w ++ [e2]
      ∧ user_uuid e2 = user_uuid e1
      ∧ name e2 = name e1
      ∧ human_id e2 = human_id e1.
Proof.
  intros Hform Hperm Hen.
  assert (enrolled (api_register app_get uuid4_source request2 w)) as Hen2.
  { apply api_register_enrolled in Hen
      as (nm & c & Hname & Hnm & Hcount & Hfind & Hlen & Hc & Hrun).
    pose proof (api_register_valid request1 w nm Hname Hnm Hcount) as Hv1.
    cbv zeta in Hv1. rewrite Hfind, Hc in Hv1.
    rewrite decide_False in Hv1 by lia.
    destruct (decide (within_schema (uuid4_source (uuid_draws w)) nm
                                    (label_of (c + 1)))) as [Hfits|Hfits];
      [|rewrite Hrun in Hv1; discriminate].
    assert (omap (embedding_of app_get) (processed (getlist "image" (files request2)))
            ≡ₚ omap (embedding_of app_get)
                 (processed (getlist "image" (files request1)))) as Hperm'.
    { unfold processed. by rewrite Hperm. }
    rewrite <- Hform in Hname. rewrite <- (Permutation_length Hperm) in Hcount.
    rewrite (api_register_valid request2 w nm Hname Hnm Hcount). cbv zeta.
    assert (list_find (faceless app_get) (getlist "image" (files request2)) = None)
      as ->.
    { apply list_find_None. rewrite Hperm. by apply list_find_None in Hfind. }
    rewrite decide_False by (rewrite (Permutation_length Hperm'); lia).
    rewrite Hc. rewrite decide_True by exact Hfits. by eexists. }
  apply api_register_enrolled in Hen
    as (nm1 & c1 & Hname1 & _ & _ & _ & _ & Hc1 & ->).
  apply api_register_enrolled in Hen2
    as (nm2 & c2 & Hname2 & _ & _ & _ & _ & Hc2 & ->).
  rewrite Hform, Hname1 in Hname2. injection Hname2 as <-.
  rewrite Hc1 in Hc2. injection Hc2 as <-.
  split; [reflexivity|]. eexists _, _.
  split; [reflexivity|]. split; [reflexivity|]. done.
Qed.

(** *** Deletion and the store *)

Lemma strip_prefix_app (p s : string) : strip_prefix p (p +:+ s) = Some s.
Proof.
  induction p as [|a p IH]; [done|].
  change (String a p +:+ s) with (String a (p +:+ s)). cbn [strip_prefix].
  destruct (decide (a = a)); [exact IH | done].
Qed.

Lemma read_quoted_plain (s : string) :
  plain s = true → read_quoted (s +:+ "'") = Some s.
Proof.
  induction s as [|c s IH]; [done|]. cbn [plain].
  intros [[Hq%negb_true_iff _]%andb_true_iff Hs]%andb_true_iff.
  apply bool_decide_eq_false in Hq.
  change (String c s +:+ "'") with (String c (s +:+ "'")). cbn [read_quoted].
  destruct (decide (c = "'"%char)); [done|]. by rewrite IH.
Qed.

Lemma parse_uuid_filter_plain (uuid : string) :
  plain uuid = true →
  parse_uuid_filter ("user_uuid == '" +:+ uuid +:+ "'") = Some uuid.
Proof.
  intros Hplain. unfold parse_uuid_filter.
  rewrite strip_prefix_app. cbn [mbind option_bind]. by apply read_quoted_plain.
Qed.

Lemma delete_user_collection (uuid : string) (w : World) :
  plain uuid = true →
  collection (world_after (delete_user uuid w))
  = filter (λ e, user_uuid e ≠ uuid) (collection w).
Proof.
  intros Hplain. rewrite delete_user_run. cbv zeta.
  by rewrite parse_uuid_filter_plain.
Qed.

(** X15.  What a deletion does to the store, for an identifier without
    quote or backslash.  The entities whose external id is the given one
    are removed and all others are kept, in their order; if no entity has
    that id the collection is unchanged; deleting the same id again changes
    nothing more; and the counter and its file are untouched, so the label
    of a deleted entity is not handed out again. *)
Theorem delete_user_removes_matching (uuid : string) (w : World) :
  plain uuid = true →
  collection (world_after (delete_user uuid w))
    = filter (λ e, user_uuid e ≠ uuid) (collection w)
  ∧ (∀ e, e ∈ collection (world_after (delete_user uuid w))
          ↔ e ∈ collection w ∧ user_uuid e ≠ uuid)
  ∧ (Forall (λ e, user_uuid e ≠ uuid) (collection w) →
     collection (world_after (delete_user uuid w)) = collection w)
  ∧ collection (world_after (delete_user uuid (world_after (delete_user uuid w))))
    = collection (world_after (delete_user uuid w))
  ∧ metadata (world_after (delete_user uuid w)) = metadata w
  ∧ metadata_file (world_after (delete_user uuid w)) = metadata_file w.
Proof.
  intros Hplain. rewrite !delete_user_collection by done.
  split; [reflexivity|]. split.
  { intros e. rewrite list_elem_of_filter. tauto. }
  split.
  { intros Hall. induction Hall as [|e es He _ IH]; [done|].
    rewrite filter_cons, decide_True by done. by rewrite IH. }
  split.
  { rewrite list_filter_filter. apply list_filter_iff. tauto. }
  rewrite delete_user_run. cbv zeta. rewrite parse_uuid_filter_plain by done.
  done.
Qed.

(** X16.  A deleted identity is never recognised again.  After the
    deletion of an identifier without quote or backslash, whatever image is
    submitted, the answer of [api_authenticate] does not carry that
    identifier. *)
Theorem deleted_user_is_not_authenticated
    (uuid : string) (request : Request) (body : Response) (status : Z) (w : World) :
  plain uuid = true →
  outcome (api_authenticate app_get l2 request (world_after (delete_user uuid w)))
    = Ok (body, status) →
  multidict_get "uuid" body ≠ Some (JStr uuid).
Proof.
  intros Hplain.
  destruct (multidict_get "image" (files request)) as [image|] eqn:Himg; last first.
  { rewrite (api_authenticate_missing_run request _) by (by left).
    by intros [= <- <-]. }
  destruct (decide (filename image = "")) as [Hfile|Hfile].
  { rewrite (api_authenticate_missing_run request _) by (right; eauto).
    by intros [= <- <-]. }
  rewrite (api_authenticate_run request image _ Himg Hfile).
  destruct (embedding_of app_get image) as [q|]; [|by intros [= <- <-]].
  destruct (nearest l2 q _) as [[e d]|] eqn:Hnear; [|by intros [= <- <-]].
  destruct (decide (d < DISTANCE_THRESHOLD)%Qc); [|by intros [= <- <-]].
  destruct (str_truthy (name e)); [|by intros [= <- <-]].
  intros [= <- <-].
  destruct (nearest_closest q _ e d Hnear) as (Hin & _ & _).
  rewrite delete_user_collection in Hin by done.
  apply list_elem_of_filter in Hin as [Hne _].
  change (multidict_get "uuid" (welcome e d).1) with (Some (JStr (user_uuid e))).
  by intros [= Heq].
Qed.

(** *** The store, step by step *)

Lemma store_step_refl w : store_step uuid4_source w w.
Proof. left. by split_and!. Qed.

Lemma store_step_logged w evs :
  inserted evs = [] → store_step uuid4_source w (logged w evs).
Proof.
  intros Hevs. left. unfold logged. cbn [collection next_pk uuid_draws log].
  rewrite inserted_app, Hevs, app_nil_r. by split_and!.
Qed.

Lemma store_step_flash w w1 message category :
  store_step uuid4_source w w1 →
  store_step uuid4_source w (world_after (flash message category w1)).
Proof. intros H. exact H. Qed.

Lemma store_step_api_register request w :
  store_step uuid4_source w (world_after (api_register app_get uuid4_source request w)).
Proof.
  destruct (decide (2 ≤ length (getlist "image" (files request)) ≤ 4)%nat)
    as [Hcount|Hcount]; last first.
  { destruct (api_register_bad_shape_run request w) as [b ->]; [by right; right|].
    apply store_step_refl. }
  destruct (multidict_get "name" (form request)) as [nm|] eqn:Hname; last first.
  { destruct (api_register_bad_shape_run request w) as [b ->]; [by left|].
    apply store_step_refl. }
  destruct (decide (nm = "")) as [->|Hnm].
  { destruct (api_register_bad_shape_run request w) as [b ->]; [by right; left|].
    apply store_step_refl. }
  rewrite (api_register_valid request w nm Hname Hnm Hcount). cbv zeta.
  destruct (list_find _ _) as [[i f0]|];
    [apply store_step_logged, inserted_embed_events|].
  destruct (decide (length _ < 2)%nat);
    [apply store_step_logged, inserted_embed_events|].
  destruct (last_user_id w) as [c|].
  - destruct (decide (within_schema _ nm _)).
    + right. eexists. unfold after_add_user, logged.
      cbn [world_after snd collection next_pk uuid_draws log pk user_uuid].
      split_and!; try reflexivity.
      rewrite !inserted_app, inserted_embed_events, app_nil_r. reflexivity.
    + left. unfold after_refused_insert, logged.
      cbn [world_after snd collection next_pk uuid_draws log].
      rewrite !inserted_app, inserted_embed_events, !app_nil_r.
      split_and!; try done. lia.
  - left. unfold uuid4_str, logged.
    cbn [world_after snd collection next_pk uuid_draws log].
    rewrite !inserted_app, inserted_embed_events, !app_nil_r.
    split_and!; try done. lia.
Qed.

Lemma api_authenticate_world request w :
  ∃ evs, world_after (api_authenticate app_get l2 request w) = logged w evs
         ∧ inserted evs = [] ∧ allocated evs = [].
Proof.
  destruct (multidict_get "image" (files request)) as [image|] eqn:Himg; last first.
  { rewrite (api_authenticate_missing_run request w) by (by left).
    exists []. by rewrite logged_nil. }
  destruct (decide (filename image = "")) as [Hfile|Hfile].
  { rewrite (api_authenticate_missing_run request w) by (right; eauto).
    exists []. by rewrite logged_nil. }
  rewrite (api_authenticate_run request image w Himg Hfile).
  destruct (embedding_of app_get image) as [q|]; by eexists.
Qed.

Lemma index_world w : world_after (index w) = logged w [EvQuery "pk >= 0"].
Proof.
  unfold index. rewrite world_after_bind, get_all_users_world.
  by destruct (outcome (get_all_users w)).
Qed.

Lemma store_step_delete_user uuid w :
  store_step uuid4_source w (world_after (delete_user uuid w)).
Proof.
  rewrite delete_user_run. cbv zeta.
  destruct (parse_uuid_filter _) as [u|]; [|by apply store_step_logged].
  left. cbn [world_after snd collection next_pk uuid_draws log].
  rewrite inserted_app. change (inserted [_; _]) with (@nil Entity).
  rewrite app_nil_r. split_and!; try done. apply sublist_filter.
Qed.

Lemma step_store_step w w' :
  step app_get uuid4_source l2 w w' → store_step uuid4_source w w'.
Proof.
  intros Hstep. destruct Hstep.
  - rewrite init_milvus_run. left. by split_and!.
  - apply store_step_api_register.
  - destruct (api_authenticate_world request w) as (evs & -> & Hi & _).
    by apply store_step_logged.
  - rewrite index_world. by apply store_step_logged.
  - unfold register_page.
    destruct (decide (method request = "POST")); [|apply store_step_refl].
    rewrite world_after_bind.
    pose proof (store_step_api_register request w) as Hreg.
    destruct (outcome (api_register app_get uuid4_source request w))
      as [[response status]|]; [|done].
    destruct (decide (status = 201)); exact Hreg.
  - unfold authenticate_page.
    destruct (decide (method request = "POST")); [|apply store_step_refl].
    rewrite world_after_bind.
    destruct (api_authenticate_world request w) as (evs & Hworld & Hi & _).
    rewrite Hworld.
    destruct (outcome (api_authenticate app_get l2 request w))
      as [[response status]|]; [|by apply store_step_logged].
    destruct (from_option json_truthy false _);
      apply store_step_flash; by apply store_step_logged.
  - unfold delete_user_page. rewrite world_after_bind.
    destruct (delete_user_never_returns uuid w) as [e ->].
    apply store_step_delete_user.
Qed.

Lemma tidy_fresh : tidy uuid4_source fresh_world.
Proof. by split_and!. Qed.

Lemma tidy_store_step w w' :
  tidy uuid4_source w → store_step uuid4_source w w' → tidy uuid4_source w'.
Proof.
  intros (Hsub & Hpos & Hpk & Huuid)
    [(Hc & Hn & Hd & Hi)|(e & Hc & Hpke & Hn & Hu & Hd & Hi)].
  - unfold tidy. rewrite Hn, Hi. split_and!; try done.
    + by transitivity (collection w).
    + replace (uuid_draws w')
        with (uuid_draws w + (uuid_draws w' - uuid_draws w))%nat by lia.
      rewrite seq_app, fmap_app. by apply sublist_inserts_r.
  - unfold tidy. rewrite Hc, Hn, Hi, Hd, !fmap_app. cbn [fmap list_fmap].
    split_and!.
    + by apply sublist_app.
    + lia.
    + rewrite Hpk, Hpke.
      replace (next_pk w + 1 - 1) with (next_pk w - 1 + 1) by lia.
      rewrite seqZ_snoc by lia. do 2 f_equal. lia.
    + rewrite seq_S, fmap_app, Hu. by apply sublist_app.
Qed.

(** Every world the program gets into has a tidy store. *)
Lemma reachable_tidy w :
  reachable app_get uuid4_source l2 w → tidy uuid4_source w.
Proof.
  unfold reachable. revert w. apply rtc_ind_r.
  - apply tidy_fresh.
  - intros w1 w2 _ Hstep IH.
    eapply tidy_store_step; [exact IH|]. by apply step_store_step.
Qed.

(** *** Identifiers are unique *)

Local Instance label_of_injective : Inj (=) (=) label_of.
Proof. intros n m. apply label_of_inj. Qed.

(** X17.  In every world the program gets into, no two stored entities
    bear the same label, and no two have the same primary key. *)
Theorem stored_labels_are_distinct (w : World) :
  reachable app_get uuid4_source l2 w →
  NoDup (human_id <$> collection w) ∧ NoDup (pk <$> collection w).
Proof.
  intros Hw. pose proof (reachable_tidy w Hw) as (Hsub & _ & Hpk & _).
  apply reachable_consistent in Hw as (c & _ & _ & _ & _ & Hl & _ & _).
  split.
  - apply (sublist_NoDup _ (human_id <$> inserted (log w))); [|by apply fmap_sublist].
    apply (sublist_NoDup _ (label_of <$> seqZ 1 c)); [|exact Hl].
    apply (NoDup_fmap_2 label_of), NoDup_seqZ.
  - apply (sublist_NoDup _ (pk <$> inserted (log w))); [|by apply fmap_sublist].
    rewrite Hpk. apply NoDup_seqZ.
Qed.

Lemma reachable_uuids_NoDup (w : World) :
  Inj (=) (=) uuid4_source →
  reachable app_get uuid4_source l2 w →
  NoDup (user_uuid <$> collection w).
Proof.
  intros Hinj Hw. pose proof (reachable_tidy w Hw) as (Hsub & _ & _ & Huuid).
  apply (sublist_NoDup _ (user_uuid <$> inserted (log w))); [|by apply fmap_sublist].
  apply (sublist_NoDup _ (uuid4_source <$> seq 0 (uuid_draws w))); [|done].
  apply (NoDup_fmap_2 uuid4_source), NoDup_seq.
Qed.

(** X18.  If the entropy source never repeats a uuid, then in every world
    the program gets into no two stored entities have the same external
    id. *)
Theorem stored_uuids_are_distinct (w : World) :
  Inj (=) (=) uuid4_source →
  reachable app_get uuid4_source l2 w →
  NoDup (user_uuid <$> collection w).
Proof. apply reachable_uuids_NoDup. Qed.

Lemma filter_all {A : Type} (P : A → Prop) `{∀ x, Decision (P x)} (l : list A) :
  Forall P l → filter P l = l.
Proof.
  induction 1 as [|x l Hx _ IH]; [done|].
  rewrite filter_cons, decide_True by done. by rewrite IH.
Qed.

Lemma NoDup_filter_drops_one {A : Type} (f : A → string) (u : string) (l : list A) :
  NoDup (f <$> l) →
  (length l ≤ S (length (filter (λ x, f x ≠ u) l)))%nat.
Proof.
  induction l as [|a l IH]; [cbn; lia|].
  rewrite fmap_cons, NoDup_cons. intros [Hnotin Hnodup].
  rewrite filter_cons. destruct (decide (f a ≠ u)) as [Hne|Heq].
  - cbn [length]. specialize (IH Hnodup). lia.
  - apply dec_stable in Heq. rewrite filter_all; [cbn [length]; lia|].
    apply Forall_forall. intros x Hx Hfx. apply Hnotin.
    rewrite Heq, <- Hfx. by apply list_elem_of_fmap_2.
Qed.

(** X19.  If the entropy source never repeats a uuid, then in every world
    the program gets into the deletion of an identifier without quote or
    backslash removes at most one entity. *)
Theorem delete_user_removes_at_most_one (uuid : string) (w : World) :
  Inj (=) (=) uuid4_source →
  reachable app_get uuid4_source l2 w →
  plain uuid = true →
  (length (collection (world_after (delete_user uuid w))) ≤ length (collection w)
   ∧ length (collection w) ≤ S (length (collection (world_after (delete_user uuid w)))))%nat.
Proof.
  intros Hinj Hw Hplain. rewrite delete_user_collection by done. split.
  - apply length_filter.
  - apply (NoDup_filter_drops_one user_uuid). by apply reachable_uuids_NoDup.
Qed.

(** *** The listing *)

Lemma mapM_fmap_pure {A B C : Type} (f : B → M C) (h : A → B) (g : A → C)
    (l : list A) (w : World) :
  (∀ a w0, f (h a) w0 = (Ok (g a), w0)) →
  mapM f (h <$> l) w = (Ok (g <$> l), w).
Proof.
  intros Hf. induction l as [|a l IH]; [done|].
  cbn [fmap list_fmap mapM]. rewrite run_bind, Hf, run_bind.
  fold (fmap h l). by rewrite IH.
Qed.

Lemma row_getitem_output_fields e w :
  row_getitem (output_fields e) "user_uuid" w = (Ok (user_uuid e), w)
  ∧ row_getitem (output_fields e) "name" w = (Ok (name e), w)
  ∧ row_getitem (output_fields e) "human_id" w = (Ok (human_id e), w).
Proof.
  unfold row_getitem.
  destruct (output_fields_lookup e) as (-> & -> & ->). done.
Qed.

Lemma get_all_users_run w :
  get_all_users w =
    (Ok (user_row <$> filter (λ e, 0 ≤ pk e) (collection w)),
     logged w [EvQuery "pk >= 0"]).
Proof.
  unfold get_all_users. rewrite run_bind.
  change (collection_query_all w)
    with (Ok (output_fields <$> filter (λ e, 0 ≤ pk e) (collection w)),
          logged w [EvQuery "pk >= 0"]).
  cbv beta iota.
  apply (mapM_fmap_pure _ output_fields user_row).
  intros e w0.
  destruct (row_getitem_output_fields e w0) as (Hu & Hn & Hh).
  by rewrite run_bind, Hu, run_bind, Hn, run_bind, Hh.
Qed.

(** X20.  In every world the program gets into, [get_all_users] never
    raises and returns one dictionary per stored entity, in insertion
    order, made of its external id, name and label; the index page renders
    exactly this list; and all that happens is one query of the store. *)
Theorem get_all_users_lists_the_collection (w : World) :
  reachable app_get uuid4_source l2 w →
  outcome (get_all_users w)
    = Ok ((λ e, {[ "uuid" := user_uuid e; "name" := name e;
                   "human_id" := human_id e ]} : gmap string string)
          <$> collection w)
  ∧ outcome (index w)
    = Ok (Render "index.html"
            ((λ e, {[ "uuid" := user_uuid e; "name" := name e;
                      "human_id" := human_id e ]} : gmap string string)
             <$> collection w))
  ∧ world_after (get_all_users w) = logged w [EvQuery "pk >= 0"]
  ∧ world_after (index w) = logged w [EvQuery "pk >= 0"].
Proof.
  intros Hw. pose proof (reachable_tidy w Hw) as (Hsub & _ & Hpk & _).
  assert (filter (λ e, 0 ≤ pk e) (collection w) = collection w) as Hall.
  { apply filter_all, Forall_forall. intros e He.
    assert (pk e ∈ pk <$> inserted (log w)) as Hin.
    { apply list_elem_of_fmap_2. by eapply elem_of_sublist. }
    rewrite Hpk in Hin. apply elem_of_seqZ in Hin. lia. }
  unfold index. rewrite run_bind, get_all_users_run, Hall. done.
Qed.

(** X21.  Enrollment and listing agree.  In every world the program gets
    into, after a successful enrollment the listing is the former listing
    followed by one dictionary that carries the external id and the label
    of the response and the submitted name. *)
Theorem enrolled_user_is_listed (request : Request) (w : World) :
  reachable app_get uuid4_source l2 w →
  enrolled (api_register app_get uuid4_source request w) →
  ∃ rows nm uuid hid,
    outcome (get_all_users w) = Ok rows
    ∧ outcome (api_register app_get uuid4_source request w)
      = Ok (registered nm uuid hid)
    ∧ multidict_get "name" (form request) = Some nm
    ∧ outcome (get_all_users
                 (world_after (api_register app_get uuid4_source request w)))
      = Ok (rows ++ [({[ "uuid" := uuid; "name" := nm; "human_id" := hid ]}
                      : gmap string string)]).
Proof.
  intros Hw Hen.
  assert (reachable app_get uuid4_source l2
            (world_after (api_register app_get uuid4_source request w))) as Hw'.
  { eapply rtc_r; [exact Hw | apply step_api_register]. }
  pose proof (reachable_tidy _ Hw) as (_ & _ & Hpk & _).
  pose proof (reachable_tidy _ Hw') as (Hsub' & _ & Hpk' & _).
  assert (∀ w0, tidy uuid4_source w0 →
            filter (λ e, 0 ≤ pk e) (collection w0) = collection w0) as Hall.
  { intros w0 (Hs & _ & Hp & _). apply filter_all, Forall_forall. intros e He.
    assert (pk e ∈ pk <$> inserted (log w0)) as Hin.
    { apply list_elem_of_fmap_2. by eapply elem_of_sublist. }
    rewrite Hp in Hin. apply elem_of_seqZ in Hin. lia. }
  rewrite !get_all_users_run.
  rewrite (Hall w (reachable_tidy _ Hw)), (Hall _ (reachable_tidy _ Hw')).
  apply api_register_enrolled in Hen
    as (nm & c & Hname & _ & _ & _ & _ & _ & Hrun).
  rewrite Hrun. eexists _, nm, _, _.
  split; [reflexivity|]. split; [reflexivity|]. split; [exact Hname|].
  cbn [world_after snd outcome fst after_add_user collection logged].
  by rewrite fmap_app.
Qed.

(** *** A name the schema cannot hold *)

(** X22.  A name longer than the 255 characters of the schema's [name]
    field.  The request passes every check of [api_register], the photos
    are embedded, and [add_user] draws a uuid and takes the next label,
    saving the counter, before the insertion is refused: the request ends
    in the engine's exception, nothing is stored, and the label it took is
    not handed out again. *)
Theorem api_register_overlong_name
    (request : Request) (nm : string) (c : Z) (w : World) :
  multidict_get "name" (form request) = Some nm →
  (255 < String.length nm)%nat →
  (2 ≤ length (getlist "image" (files request)) ≤ 4)%nat →
  list_find (faceless app_get) (getlist "image" (files request)) = None →
  (2 ≤ length (processed (getlist "image" (files request))))%nat →
  last_user_id w = Some c →
  (∃ msg, outcome (api_register app_get uuid4_source request w)
          = Raise (MilvusException msg))
  ∧ collection (world_after (api_register app_get uuid4_source request w))
    = collection w
  ∧ last_user_id (world_after (api_register app_get uuid4_source request w))
    = Some (c + 1)
  ∧ metadata_file (world_after (api_register app_get uuid4_source request w))
    = Some (metadata (world_after (api_register app_get uuid4_source request w)))
  ∧ uuid_draws (world_after (api_register app_get uuid4_source request w))
    = S (uuid_draws w).
Proof.
  intros Hname Hlong Hcount Hfind Hlen Hc.
  assert (nm ≠ "") as Hnm by (intros ->; cbn in Hlong; lia).
  rewrite (api_register_valid request w nm Hname Hnm Hcount). cbv zeta.
  rewrite Hfind, Hc.
  rewrite <- (Forall2_length _ _ _ (no_faceless_embeddings _ Hfind)).
  rewrite decide_False by lia.
  rewrite decide_False by (intros (_ & Hn & _); lia).
  cbn [outcome world_after fst snd].
  split; [by eexists|].
  unfold after_refused_insert, last_user_id, logged.
  cbn [collection metadata metadata_file uuid_draws].
  split; [reflexivity|]. split; [apply lookup_insert_eq|]. done.
Qed.

End Properties.

(** ** The statements at work on the concrete collaborators *)

Lemma alice_enrolled :
  outcome (api_register Demo.app_get Demo.uuid4_source Demo.enroll_alice fresh_world)
  = Ok (registered "Alice" "uuid-0" "fr1").
Proof. vm_compute. reflexivity. Defined.

Lemma alice_world_reachable :
  reachable Demo.app_get Demo.uuid4_source Demo.l2 Demo.alice_world.
Proof. apply rtc_once. apply step_api_register. Defined.

(** A nameless request with two good photos is rejected without a trace. *)
Lemma api_register_rejects_bad_shape_witness :
  multidict_get "name" (form Demo.enroll_nameless) = Some ""
  ∧ (∃ body,
       outcome (api_register Demo.app_get Demo.uuid4_source
                  Demo.enroll_nameless fresh_world) = Ok (body, 400))
  ∧ world_after (api_register Demo.app_get Demo.uuid4_source
                   Demo.enroll_nameless fresh_world) = fresh_world.
Proof.
  split; [reflexivity|].
  apply (api_register_rejects_bad_shape Demo.app_get Demo.uuid4_source
           Demo.enroll_nameless fresh_world).
  right. left. reflexivity.
Defined.

(** A photo without a face is answered "No face detected" and the store is
    not searched. *)
Lemma api_authenticate_no_face_witness :
  outcome (api_authenticate Demo.app_get Demo.l2 (Demo.photo Byte.x00) Demo.alice_world)
    = Ok ([("authenticated", JBool false); ("message", JStr "No face detected")], 200)
  ∧ world_after (api_authenticate Demo.app_get Demo.l2 (Demo.photo Byte.x00)
                   Demo.alice_world)
    = logged Demo.alice_world [EvEmbed [Byte.x00]].
Proof.
  apply (api_authenticate_no_face Demo.app_get Demo.l2 (Demo.photo Byte.x00)
           (mkFile "q.jpg" [Byte.x00]) Demo.alice_world).
  - reflexivity.
  - discriminate.
  - reflexivity.
Defined.

(** The fourth file of the request is the first one without a face, and
    the answer names it. *)
Lemma api_register_no_face_aborts_witness :
  outcome (api_register Demo.app_get Demo.uuid4_source
             Demo.enroll_with_bad_photo fresh_world)
    = Ok ([("error", JStr "No face detected in one of the images ('c.jpg').")], 400)
  ∧ collection (world_after (api_register Demo.app_get Demo.uuid4_source
                               Demo.enroll_with_bad_photo fresh_world)) = []
  ∧ metadata_file (world_after (api_register Demo.app_get Demo.uuid4_source
                                  Demo.enroll_with_bad_photo fresh_world)) = None.
Proof.
  destruct (api_register_no_face_aborts Demo.app_get Demo.uuid4_source
              Demo.enroll_with_bad_photo fresh_world "Bob" 3
              (mkFile "c.jpg" [Byte.x00]))
    as (Hout & _ & Hcoll & _ & Hfile & _).
  - reflexivity.
  - discriminate.
  - vm_compute. lia.
  - vm_compute. reflexivity.
  - split; [exact Hout|]. split; [exact Hcoll | exact Hfile].
Defined.

(** Alice's two photos are stored as their mean. *)
Lemma enrollment_stores_mean_witness :
  ∃ (es : list ndarray) (e : Entity),
    (2 ≤ length es ≤ 4)%nat
    ∧ collection Demo.alice_world = [e]
    ∧ embedding e = np_mean_axis0 es.
Proof.
  destruct (enrollment_stores_mean Demo.app_get Demo.uuid4_source
              Demo.enroll_alice fresh_world)
    as (es & e & _ & Hlen & Hcoll & Hmean & _).
  - eexists. exact alice_enrolled.
  - exists es, e. split; [exact Hlen|]. split; [exact Hcoll | exact Hmean].
Defined.

(** Alice's enrollment inserts one entity, "uuid-0" with the label "fr1". *)
Lemma enrollment_inserts_one_record_witness :
  ∃ e : Entity,
    collection Demo.alice_world = [e]
    ∧ user_uuid e = "uuid-0"
    ∧ human_id e = "fr1".
Proof.
  destruct (enrollment_inserts_one_record Demo.app_get Demo.uuid4_source
              Demo.enroll_alice fresh_world)
    as (e & c & Hcoll & _ & Huuid & _ & Hc & Hlabel & _).
  - eexists. exact alice_enrolled.
  - exists e. split; [exact Hcoll|]. split; [exact Huuid|].
    injection Hc as <-. exact Hlabel.
Defined.

(** After Alice, the next label is "fr2". *)
Lemma labels_strictly_increase_witness :
  ∃ c : Z,
    last_user_id Demo.alice_world = Some c
    ∧ outcome (get_next_human_id Demo.alice_world) = Ok ("fr" +:+ pretty (c + 1)).
Proof.
  destruct (labels_strictly_increase Demo.app_get Demo.uuid4_source Demo.l2
              Demo.alice_world alice_world_reachable)
    as (c & Hc & Hnext & _).
  exists c. split; [exact Hc | exact Hnext].
Defined.

(** A photo close to Alice's signature is welcomed as Alice. *)
Lemma api_authenticate_welcomes_match_witness :
  ∃ (e : Entity) (d : Qc),
    e ∈ collection Demo.alice_world
    ∧ outcome (api_authenticate Demo.app_get Demo.l2 (Demo.photo Byte.x02)
                 Demo.alice_world)
      = Ok (welcome e d).
Proof.
  destruct (api_authenticate_welcomes_match Demo.app_get Demo.uuid4_source Demo.l2
              (Demo.photo Byte.x02) (mkFile "q.jpg" [Byte.x02])
              (Demo.constant 2)
              (Some "uuid-0", Some "Alice", Some "fr1", Some 0%Qc)
              Demo.alice_world alice_world_reachable)
    as (e & d & Hin & _ & _ & Hout).
  - reflexivity.
  - discriminate.
  - reflexivity.
  - vm_compute. reflexivity.
  - discriminate.
  - exists e, d. split; [exact Hin | exact Hout].
Defined.

(** Three uploads of which two have no name: too few are left. *)
Lemma api_register_skips_unnamed_files_witness :
  outcome (api_register Demo.app_get Demo.uuid4_source
             Demo.enroll_mostly_unnamed fresh_world)
  = Ok ([("error", JStr "Fewer than 2 valid images were processed.")], 400).
Proof.
  destruct (api_register_skips_unnamed_files Demo.app_get Demo.uuid4_source Demo.l2
              Demo.enroll_mostly_unnamed "Bob" fresh_world)
    as (_ & _ & Hcase).
  - apply rtc_refl.
  - reflexivity.
  - discriminate.
  - vm_compute. lia.
  - assert (list_find (faceless Demo.app_get)
              (getlist "image" (files Demo.enroll_mostly_unnamed)) = None) as Hnone
      by (vm_compute; reflexivity).
    rewrite Hnone in Hcase. destruct Hcase as [_ Hcase].
    rewrite decide_False in Hcase by (vm_compute; lia).
    exact Hcase.
Defined.

(** C10 as stated fails.  In [Demo.enroll_with_bad_photo] two of the
    files that have a name yield embeddings, yet the enrollment does not
    succeed: it is answered with the no-face error for the third one.  In
    [Demo.enroll_with_one_good_photo] fewer than two do, yet the answer is
    not "Fewer than 2 valid images were processed." but the no-face error
    again. *)
Lemma unnamed_files_claim_fails :
  (2 ≤ length (omap (embedding_of Demo.app_get)
                 (processed (getlist "image" (files Demo.enroll_with_bad_photo)))))%nat
  ∧ ¬ enrolled (api_register Demo.app_get Demo.uuid4_source
                  Demo.enroll_with_bad_photo fresh_world)
  ∧ (length (omap (embedding_of Demo.app_get)
               (processed (getlist "image" (files Demo.enroll_with_one_good_photo))))
     < 2)%nat
  ∧ outcome (api_register Demo.app_get Demo.uuid4_source
               Demo.enroll_with_one_good_photo fresh_world)
    ≠ Ok too_few_error.
Proof.
  split; [vm_compute; lia|].
  split; [intros [body H]; vm_compute in H; discriminate|].
  split; [vm_compute; lia|].
  intros H. vm_compute in H. discriminate.
Qed.

(** ** Further statements at work on the concrete collaborators *)

Lemma alice_world_collection : collection Demo.alice_world = [Demo.alice].
Proof. vm_compute. reflexivity. Defined.

Lemma demo_uuid4_source_inj : Inj (=) (=) Demo.uuid4_source.
Proof.
  intros n m. unfold Demo.uuid4_source.
  change ("uuid-" +:+ pretty n)
    with (String "u" (String "u" (String "i" (String "d" (String "-" (pretty n)))))).
  change ("uuid-" +:+ pretty m)
    with (String "u" (String "u" (String "i" (String "d" (String "-" (pretty m)))))).
  intros [= H]. by apply (inj pretty).
Defined.

Lemma api_authenticate_missing_image_witness :
  outcome (api_authenticate Demo.app_get Demo.l2 (mkRequest "POST" [] []) Demo.alice_world)
    = Ok ([("error", JStr "Missing image")], 400)
  ∧ world_after (api_authenticate Demo.app_get Demo.l2 (mkRequest "POST" [] [])
                   Demo.alice_world) = Demo.alice_world.
Proof.
  apply (api_authenticate_missing_image Demo.app_get Demo.l2
           (mkRequest "POST" [] []) Demo.alice_world).
  left. reflexivity.
Defined.

(** A photo far from Alice's signature is not recognised. *)
Lemma api_authenticate_not_recognized_witness :
  outcome (api_authenticate Demo.app_get Demo.l2 (Demo.photo Byte.x09) Demo.alice_world)
  = Ok ([("authenticated", JBool false); ("message", JStr "User not recognized")], 200).
Proof.
  apply (api_authenticate_not_recognized Demo.app_get Demo.l2 (Demo.photo Byte.x09)
           (mkFile "q.jpg" [Byte.x09]) (Demo.constant 9) Demo.alice_world).
  - reflexivity.
  - discriminate.
  - reflexivity.
  - right. exists Demo.alice, (Demo.l2 (Demo.constant 9) (embedding Demo.alice)).
    split; [vm_compute; reflexivity | vm_compute; discriminate].
Defined.

(** A photo at distance 0 from Alice's signature is welcomed. *)
Lemma api_authenticate_finds_close_entity_witness :
  ∃ (e' : Entity) (d : Qc),
    e' ∈ collection Demo.alice_world
    ∧ outcome (api_authenticate Demo.app_get Demo.l2 (Demo.photo Byte.x02)
                 Demo.alice_world) = Ok (welcome e' d).
Proof.
  destruct (api_authenticate_finds_close_entity Demo.app_get Demo.uuid4_source Demo.l2
              (Demo.photo Byte.x02) (mkFile "q.jpg" [Byte.x02]) (Demo.constant 2)
              Demo.alice Demo.alice_world alice_world_reachable)
    as (e' & d & Hin & _ & _ & Hout).
  - reflexivity.
  - discriminate.
  - reflexivity.
  - rewrite alice_world_collection. by left.
  - vm_compute. reflexivity.
  - exists e', d. split; [exact Hin | exact Hout].
Defined.

Lemma bad_photo_refused :
  outcome (api_register Demo.app_get Demo.uuid4_source Demo.enroll_with_bad_photo
             Demo.alice_world)
  = Ok (no_face_error "c.jpg").
Proof. vm_compute. reflexivity. Defined.

Lemma api_register_answers_201_or_400_witness :
  (400 = 201
   ∧ ∃ nm uuid hid,
       (no_face_error "c.jpg").1
       = [("success", JBool true);
          ("message", JStr ("User '" +:+ nm +:+ "' registered successfully with ID "
                            +:+ hid +:+ "."));
          ("uuid", JStr uuid);
          ("human_id", JStr hid)])
  ∨ (400 = 400 ∧ ∃ msg, (no_face_error "c.jpg").1 = [("error", JStr msg)]).
Proof.
  apply (api_register_answers_201_or_400 Demo.app_get Demo.uuid4_source
           Demo.enroll_with_bad_photo (no_face_error "c.jpg").1 400 Demo.alice_world).
  exact bad_photo_refused.
Defined.

(** The page flashes the API's error about "c.jpg". *)
Lemma register_page_flashes_api_message_witness :
  outcome (register_page Demo.app_get Demo.uuid4_source Demo.enroll_with_bad_photo
             Demo.alice_world) = Ok (Redirect "index").
Proof.
  pose proof (register_page_flashes_api_message Demo.app_get Demo.uuid4_source
                Demo.enroll_with_bad_photo Demo.alice_world eq_refl) as H.
  rewrite bad_photo_refused in H. exact (proj1 H).
Defined.



Lemma alice_enrolled_again :
  enrolled (api_register Demo.app_get Demo.uuid4_source Demo.enroll_alice
              (world_after (api_register Demo.app_get Demo.uuid4_source
                              Demo.enroll_alice fresh_world))).
Proof. eexists. vm_compute. reflexivity. Defined.

(** Enrolling Alice twice in a row gives two entities. *)
Lemma consecutive_enrollments_witness :
  ∃ (c : Z) (e1 e2 : Entity),
    last_user_id fresh_world = Some c
    ∧ human_id e1 = label_of (c + 1) ∧ human_id e2 = label_of (c + 2).
Proof.
  destruct (consecutive_enrollments Demo.app_get Demo.uuid4_source
              Demo.enroll_alice Demo.enroll_alice fresh_world)
    as (c & e1 & e2 & Hc & _ & _ & _ & H1 & H2).
  - eexists. exact alice_enrolled.
  - exact alice_enrolled_again.
  - exists c, e1, e2. split; [exact Hc|]. split; [exact H1 | exact H2].
Defined.


Lemma restart_without_file_resets_counter_witness :
  last_user_id (world_after (init_milvus fresh_world)) = Some 0.
Proof.
  apply (restart_without_file_resets_counter Demo.app_get Demo.uuid4_source
           Demo.enroll_alice fresh_world).
  reflexivity.
Defined.

(** With an empty JSON object as metadata file, Alice's request raises. *)
Lemma enrollment_without_counter_key_witness :
  outcome (api_register Demo.app_get Demo.uuid4_source Demo.enroll_alice
             (world_after (init_milvus Demo.keyless_world)))
  = Raise (KeyError "last_user_id").
Proof.
  apply (enrollment_without_counter_key Demo.app_get Demo.uuid4_source
           Demo.enroll_alice "Alice" ∅ Demo.keyless_world).
  - reflexivity.
  - reflexivity.
  - reflexivity.
  - discriminate.
  - vm_compute. lia.
  - vm_compute. reflexivity.
  - vm_compute. lia.
Defined.

Lemma distinct_counters_distinct_labels_witness : label_of 1 ≠ label_of 2.
Proof. apply (distinct_counters_distinct_labels 1 2). discriminate. Defined.

(** Alice's photos in the other order give the same answer. *)
Lemma enrollment_ignores_photo_order_witness :
  outcome (api_register Demo.app_get Demo.uuid4_source Demo.enroll_alice_swapped
             fresh_world)
  = outcome (api_register Demo.app_get Demo.uuid4_source Demo.enroll_alice fresh_world).
Proof.
  apply (enrollment_ignores_photo_order Demo.app_get Demo.uuid4_source
           Demo.enroll_alice Demo.enroll_alice_swapped fresh_world).
  - reflexivity.
  - apply perm_swap.
  - eexists. exact alice_enrolled.
Defined.

(** Deleting "uuid-0" empties Alice's world. *)
Lemma delete_user_removes_matching_witness :
  collection (world_after (delete_user "uuid-0" Demo.alice_world))
  = filter (λ e, user_uuid e ≠ "uuid-0") (collection Demo.alice_world).
Proof.
  apply (delete_user_removes_matching "uuid-0" Demo.alice_world).
  reflexivity.
Defined.

(** After the deletion of "uuid-0", Alice's own photo is not recognised
    as "uuid-0". *)
Lemma deleted_user_is_not_authenticated_witness :
  multidict_get "uuid" not_recognized.1 ≠ Some (JStr "uuid-0").
Proof.
  apply (deleted_user_is_not_authenticated Demo.app_get Demo.l2 "uuid-0"
           (Demo.photo Byte.x02) not_recognized.1 not_recognized.2 Demo.alice_world).
  - reflexivity.
  - vm_compute. reflexivity.
Defined.

Lemma stored_labels_are_distinct_witness :
  NoDup (human_id <$> collection Demo.alice_world)
  ∧ NoDup (pk <$> collection Demo.alice_world).
Proof.
  apply (stored_labels_are_distinct Demo.app_get Demo.uuid4_source Demo.l2
           Demo.alice_world alice_world_reachable).
Defined.

Lemma stored_uuids_are_distinct_witness :
  NoDup (user_uuid <$> collection Demo.alice_world).
Proof.
  apply (stored_uuids_are_distinct Demo.app_get Demo.uuid4_source Demo.l2
           Demo.alice_world demo_uuid4_source_inj alice_world_reachable).
Defined.

Lemma delete_user_removes_at_most_one_witness :
  (length (collection Demo.alice_world)
   ≤ S (length (collection (world_after (delete_user "uuid-0" Demo.alice_world)))))%nat.
Proof.
  apply (delete_user_removes_at_most_one Demo.app_get Demo.uuid4_source Demo.l2
           "uuid-0" Demo.alice_world demo_uuid4_source_inj alice_world_reachable).
  reflexivity.
Defined.

Lemma get_all_users_lists_the_collection_witness :
  world_after (get_all_users Demo.alice_world)
  = logged Demo.alice_world [EvQuery "pk >= 0"].
Proof.
  apply (get_all_users_lists_the_collection Demo.app_get Demo.uuid4_source Demo.l2
           Demo.alice_world alice_world_reachable).
Defined.

(** After Alice's enrollment the listing ends with Alice. *)
Lemma enrolled_user_is_listed_witness :
  ∃ rows nm uuid hid,
    outcome (get_all_users fresh_world) = Ok rows
    ∧ outcome (get_all_users Demo.alice_world)
      = Ok (rows ++ [({[ "uuid" := uuid; "name" := nm; "human_id" := hid ]}
                      : gmap string string)]).
Proof.
  destruct (enrolled_user_is_listed Demo.app_get Demo.uuid4_source Demo.l2
              Demo.enroll_alice fresh_world)
    as (rows & nm & uuid & hid & Hrows & _ & _ & Hlist).
  - apply rtc_refl.
  - eexists. exact alice_enrolled.
  - exists rows, nm, uuid, hid. split; [exact Hrows | exact Hlist].
Defined.

Lemma api_register_overlong_name_witness :
  collection (world_after (api_register Demo.app_get Demo.uuid4_source
                             Demo.enroll_long_name Demo.alice_world))
  = collection Demo.alice_world
  ∧ last_user_id (world_after (api_register Demo.app_get Demo.uuid4_source
                                 Demo.enroll_long_name Demo.alice_world))
    = Some 2.
Proof.
  destruct (api_register_overlong_name Demo.app_get Demo.uuid4_source
              Demo.enroll_long_name Demo.long_name 1 Demo.alice_world)
    as (_ & Hcoll & Hlast & _).
  - reflexivity.
  - vm_compute. lia.
  - vm_compute. lia.
  - vm_compute. reflexivity.
  - vm_compute. lia.
  - vm_compute. reflexivity.
  - split; [exact Hcoll | exact Hlast].
Defined.
